(** * penlog: a line-delimited JSON event logger

    A shallow embedding of [penlog.py] and the properties of its records.

    Python strings are sequences of Unicode code points, dictionaries keep
    their insertion order, [Logger] objects live in a heap and are reached
    through references, and the module keeps one global reference
    [_logger].  The host name, the wall clock and the output streams belong
    to the environment and are part of the state that every call threads. *)

From Stdlib Require Import NArith Ascii String List Lia.
From stdpp Require Import base option numbers list.

Local Open Scope N_scope.

(** ** Python [str] *)

(** A [str] is the list of its code points. *)
Definition str := list N.

(** A literal of the source, character by character. *)
Definition lit (s : string) : str :=
  map N_of_ascii (list_ascii_of_string s).

Definition QUOTE : N := 34.
Definition BACKSLASH : N := 92.
Definition NEWLINE : N := 10.

(** ** [class MessageType(str, Enum)] *)

Inductive MessageType :=
| ERROR | WARNING | INFO | DEBUG | SUMMARY | READ | WRITE | PREAMBLE.

(** A member of a [str]-mixin enumeration is a [str] whose characters are
    its value; that is what a dictionary stores and [json.dumps] reads. *)
Definition value (t : MessageType) : str :=
  match t with
  | ERROR => lit "error"
  | WARNING => lit "warning"
  | INFO => lit "info"
  | DEBUG => lit "debug"
  | SUMMARY => lit "summary"
  | READ => lit "read"
  | WRITE => lit "write"
  | PREAMBLE => lit "preamble"
  end.

(** ** [Dict]: insertion-ordered, one entry per key *)

Definition dict := list (str * str).

(** [d[k] = v]: an existing key keeps its place and gets the new value, a
    new key goes to the end. *)
Fixpoint setitem (d : dict) (k v : str) : dict :=
  match d with
  | [] => [(k, v)]
  | (k', v') :: d' =>
      if decide (k' = k) then (k', v) :: d' else (k', v') :: setitem d' k v
  end.

(** [d.get(k)] *)
Fixpoint getitem (d : dict) (k : str) : option str :=
  match d with
  | [] => None
  | (k', v') :: d' => if decide (k' = k) then Some v' else getitem d' k
  end.

(** [list(d)]: the keys in order. *)
Definition keys (d : dict) : list str := map fst d.

(** A display [{k1: v1, ..., kn: vn}] stores its items from left to right. *)
Definition display (items : list (str * str)) : dict :=
  fold_left (fun d kv => setitem d (fst kv) (snd kv)) items [].

(** ** [json.dumps] on a dictionary of strings

    The default encoder: [ensure_ascii=True], a comma and a space between
    items, a colon and a space after a key.  The pattern [ESCAPE_ASCII]
    selects the backslash, the double quote and every character outside
    the range from space to tilde; [ESCAPE_DCT] holds the short escapes and
    the [\u00XX] of the control characters; anything else is written as
    one [\uXXXX], or two for a character beyond the basic plane. *)

Definition hexdigit (d : N) : N := if d <? 10 then 48 + d else 87 + d.

(** The format [{0:04x}] of [n], for [n < 0x10000]: the only values it is
    applied to. *)
Definition hex4 (n : N) : str :=
  [ hexdigit ((n / 4096) mod 16); hexdigit ((n / 256) mod 16);
    hexdigit ((n / 16) mod 16); hexdigit (n mod 16) ].

Definition u_escape (n : N) : str := BACKSLASH :: 117 :: hex4 n.

Definition ESCAPE_ASCII (c : N) : bool :=
  (c =? BACKSLASH) || (c =? QUOTE) || negb ((32 <=? c) && (c <=? 126)).

Definition ESCAPE_DCT (c : N) : option str :=
  if c =? BACKSLASH then Some [BACKSLASH; BACKSLASH]
  else if c =? QUOTE then Some [BACKSLASH; QUOTE]
  else if c =? 8 then Some [BACKSLASH; 98]
  else if c =? 12 then Some [BACKSLASH; 102]
  else if c =? 10 then Some [BACKSLASH; 110]
  else if c =? 13 then Some [BACKSLASH; 114]
  else if c =? 9 then Some [BACKSLASH; 116]
  else if c <? 32 then Some (u_escape c)
  else None.

Definition replace (c : N) : str :=
  match ESCAPE_DCT c with
  | Some s => s
  | None =>
      if c <? 65536 then u_escape c
      else
        let n := c - 65536 in
        let s1 := N.lor 55296 (N.land (N.shiftr n 10) 1023) in
        let s2 := N.lor 56320 (N.land n 1023) in
        u_escape s1 ++ u_escape s2
  end.

Definition encode_char (c : N) : str :=
  if ESCAPE_ASCII c then replace c else [c].

Definition py_encode_basestring_ascii (s : str) : str :=
  QUOTE :: flat_map encode_char s ++ [QUOTE].

Definition encode_item (kv : str * str) : str :=
  py_encode_basestring_ascii (fst kv) ++ lit ": "
    ++ py_encode_basestring_ascii (snd kv).

Fixpoint join (sep : str) (l : list str) : str :=
  match l with
  | [] => []
  | [x] => x
  | x :: l' => x ++ sep ++ join sep l'
  end.

Definition json_dumps (d : dict) : str :=
  lit "{" ++ join (lit ", ") (map encode_item d) ++ lit "}".

(** ** [datetime.now().isoformat()] *)

Record datetime := mkdatetime {
  year : N; month : N; day : N;
  hour : N; minute : N; second : N; microsecond : N
}.

(** A [datetime] object has [1 <= year <= 9999], [month <= 12] and so on;
    within these ranges [%02d], [%04d] and [%06d] print exactly the digits
    below. *)
Definition digit (n : N) : N := 48 + n mod 10.
Definition dec2 (n : N) : str := [digit (n / 10); digit n].
Definition dec4 (n : N) : str := dec2 (n / 100) ++ dec2 n.
Definition dec6 (n : N) : str := dec2 (n / 10000) ++ dec4 n.

(** A naive [datetime] (no time zone): date, ['T'], time, and the
    microseconds only when they are not zero. *)
Definition isoformat (t : datetime) : str :=
  dec4 (year t) ++ lit "-" ++ dec2 (month t) ++ lit "-" ++ dec2 (day t)
    ++ lit "T"
    ++ dec2 (hour t) ++ lit ":" ++ dec2 (minute t) ++ lit ":"
    ++ dec2 (second t)
    ++ (if microsecond t =? 0 then [] else lit "." ++ dec6 (microsecond t)).

Local Close Scope N_scope.

(** ** The state threaded by every call *)

(** An output stream: [sys.stderr], or one that the application opened. *)
Inductive Sink := stderr | stream (n : nat).

#[global] Instance Sink_eq_dec : EqDecision Sink.
Proof. solve_decision. Defined.

(** The attributes that [Logger.__init__] assigns. *)
Record Logger := mkLogger {
  host : str;
  component : str;
  flush : bool;
  file : Sink
}.

(** A reference to a [Logger] object: its index in the heap. *)
Definition ref := nat.

(** One execution of [print(json.dumps(msg), file=f, flush=b)], kept with
    the dictionary that was serialized; [written] gives its characters. *)
Record Event := PrintJson {
  ev_msg : dict;
  ev_file : Sink;
  ev_flush : bool
}.

Record World := mkWorld {
  hostname : option str;   (* the answer of [socket.gethostname()], [None] when it raises *)
  clock : nat -> datetime; (* the successive readings of the wall clock *)
  ticks : nat;             (* the number of readings taken so far *)
  heap : list Logger;      (* the [Logger] objects constructed so far *)
  _logger : ref;           (* the module level default logger *)
  trace : list Event       (* what was printed, oldest first *)
}.

(** [print] writes its argument and then the line end. *)
Definition written (e : Event) : str := json_dumps (ev_msg e) ++ [NEWLINE].

(** The characters that a stream has received. *)
Definition sink_text (tr : list Event) (s : Sink) : str :=
  flat_map (fun e => if decide (ev_file e = s) then written e else []) tr.

(** A computation reads and changes the world, or raises. *)
Definition M (A : Type) : Type := World -> option (A * World).

Definition ret {A} (x : A) : M A := fun w => Some (x, w).

Definition bind {A B} (m : M A) (k : A -> M B) : M B :=
  fun w => match m w with
           | Some (x, w') => k x w'
           | None => None
           end.

Declare Scope py_scope.
Delimit Scope py_scope with py.
Notation "x <- m ;; k" := (bind m (fun x => k))
  (at level 20, m at level 99, k at level 200, only parsing) : py_scope.
Notation "m ;; k" := (bind m (fun _ => k))
  (at level 100, k at level 200, only parsing, right associativity) : py_scope.
Local Open Scope py_scope.

(** [socket.gethostname()] *)
Definition gethostname : M str :=
  fun w => match hostname w with
           | Some h => Some (h, w)
           | None => None
           end.

(** [datetime.now()] *)
Definition datetime_now : M datetime :=
  fun w => Some (clock w (ticks w),
                 mkWorld (hostname w) (clock w) (S (ticks w)) (heap w)
                         (_logger w) (trace w)).

(** A new object, placed after the existing ones. *)
Definition alloc (l : Logger) : M ref :=
  fun w => Some (length (heap w),
                 mkWorld (hostname w) (clock w) (ticks w) (heap w ++ [l])
                         (_logger w) (trace w)).

(** Reading the attributes of [self]. *)
Definition deref (self : ref) : M Logger :=
  fun w => match heap w !! self with
           | Some l => Some (l, w)
           | None => None
           end.

(** Reading and assigning the global [_logger]. *)
Definition get_logger : M ref := fun w => Some (_logger w, w).

Definition set_logger (r : ref) : M unit :=
  fun w => Some (tt, mkWorld (hostname w) (clock w) (ticks w) (heap w) r
                             (trace w)).

(** [print(json.dumps(msg), file=file_, flush=flush_)] *)
Definition print_json_dumps (msg : dict) (file_ : Sink) (flush_ : bool)
  : M unit :=
  fun w => Some (tt, mkWorld (hostname w) (clock w) (ticks w) (heap w)
                             (_logger w)
                             (trace w ++ [PrintJson msg file_ flush_])).

(** ** [class Logger] *)

Module Logger.

(** An omitted argument is [None] and takes the default of the
    signature.  [timefmt] is received and not stored. *)
Definition __init__ (component_ : option str) (timefmt : option str)
           (flush_ : option bool) (file_ : option Sink) : M ref :=
  let component_ := default (lit "root") component_ in
  let timefmt := default (lit "%c") timefmt in
  let flush_ := default false flush_ in
  let file_ := default stderr file_ in
  h <- gethostname ;;
  alloc (mkLogger h component_ flush_ file_).

Definition _log (self : ref) (msg : dict) : M unit :=
  this <- deref self ;;
  let msg := setitem msg (lit "component") (component this) in
  let msg := setitem msg (lit "host") (host this) in
  now <- datetime_now ;;
  let msg := setitem msg (lit "timestamp") (isoformat now) in
  print_json_dumps msg (file this) (flush this).

Definition log_preamble (self : ref) (data : str) : M unit :=
  this <- deref self ;;
  let msg := display [ (lit "host", host this);
                       (lit "type", value PREAMBLE);
                       (lit "data", data) ] in
  _log self msg.

Definition log_read (self : ref) (data handle : str) : M unit :=
  let msg := display [ (lit "type", value READ);
                       (lit "handle", handle);
                       (lit "data", data) ] in
  _log self msg.

Definition log_write (self : ref) (data handle : str) : M unit :=
  let msg := display [ (lit "type", value WRITE);
                       (lit "handle", handle);
                       (lit "data", data) ] in
  _log self msg.

Definition log_msg (self : ref) (data : str) (type_ : option MessageType)
  : M unit :=
  let type_ := default INFO type_ in
  let msg := display [ (lit "type", value type_);
                       (lit "data", data) ] in
  _log self msg.

Definition log_debug (self : ref) (data : str) : M unit :=
  log_msg self data (Some DEBUG).

Definition log_info (self : ref) (data : str) : M unit :=
  log_msg self data (Some INFO).

Definition log_warning (self : ref) (data : str) : M unit :=
  log_msg self data (Some WARNING).

Definition log_error (self : ref) (data : str) : M unit :=
  log_msg self data (Some ERROR).

Definition log_summary (self : ref) (data : str) : M unit :=
  log_msg self data (Some SUMMARY).

End Logger.

(** ** The module level *)

(** [_logger = Logger()], executed when the module is imported. *)
Definition import_penlog (hn : option str) (clk : nat -> datetime)
  : option World :=
  match (r <- Logger.__init__ None None None None ;; set_logger r)
          (mkWorld hn clk 0 [] 0 []) with
  | Some (_, w) => Some w
  | None => None
  end.

Definition set_options (component_ timefmt : option str) : M unit :=
  let component_ := default (lit "root") component_ in
  let timefmt := default (lit "%c") timefmt in
  r <- Logger.__init__ (Some component_) (Some timefmt) None None ;;
  set_logger r.

Definition log_preamble (data : str) : M unit :=
  l <- get_logger ;; Logger.log_preamble l data.

(** [type_] is received and not passed on: the method is called with
    [data] alone. *)
Definition log_msg (data : str) (type_ : option MessageType) : M unit :=
  let type_ := default INFO type_ in
  l <- get_logger ;; Logger.log_msg l data None.

Definition log_write (data handle : str) : M unit :=
  l <- get_logger ;; Logger.log_write l data handle.

Definition log_read (data handle : str) : M unit :=
  l <- get_logger ;; Logger.log_read l data handle.

Definition log_debug (data : str) : M unit := log_msg data (Some DEBUG).
Definition log_info (data : str) : M unit := log_msg data (Some INFO).
Definition log_warning (data : str) : M unit := log_msg data (Some WARNING).
Definition log_error (data : str) : M unit := log_msg data (Some ERROR).
Definition log_summary (data : str) : M unit := log_msg data (Some SUMMARY).

(** ** Calls and programs *)

(** The logging operations, which exist once as methods of [Logger] and
    once as functions of the module. *)
Inductive Operation :=
| op_log_preamble (data : str)
| op_log_read (data handle : str)
| op_log_write (data handle : str)
| op_log_msg (data : str) (type_ : option MessageType)
| op_log_debug (data : str)
| op_log_info (data : str)
| op_log_warning (data : str)
| op_log_error (data : str)
| op_log_summary (data : str).

Definition call_method (self : ref) (op : Operation) : M unit :=
  match op with
  | op_log_preamble data => Logger.log_preamble self data
  | op_log_read data handle => Logger.log_read self data handle
  | op_log_write data handle => Logger.log_write self data handle
  | op_log_msg data type_ => Logger.log_msg self data type_
  | op_log_debug data => Logger.log_debug self data
  | op_log_info data => Logger.log_info self data
  | op_log_warning data => Logger.log_warning self data
  | op_log_error data => Logger.log_error self data
  | op_log_summary data => Logger.log_summary self data
  end.

Definition call_function (op : Operation) : M unit :=
  match op with
  | op_log_preamble data => log_preamble data
  | op_log_read data handle => log_read data handle
  | op_log_write data handle => log_write data handle
  | op_log_msg data type_ => log_msg data type_
  | op_log_debug data => log_debug data
  | op_log_info data => log_info data
  | op_log_warning data => log_warning data
  | op_log_error data => log_error data
  | op_log_summary data => log_summary data
  end.

(** An emission: a method of some logger, or a function of the module. *)
Inductive Call :=
| Method (self : ref) (op : Operation)
| Function (op : Operation).

Definition call (c : Call) : M unit :=
  match c with
  | Method self op => call_method self op
  | Function op => call_function op
  end.

(** What a client and its environment can do between two emissions. *)
Inductive Step :=
| Emit (c : Call)
| SetOptions (component_ timefmt : option str)
| Construct (component_ timefmt : option str) (flush_ : option bool)
            (file_ : option Sink)
| Rename (hn : option str).   (* the machine gets another host name *)

Definition rename (hn : option str) : M unit :=
  fun w => Some (tt, mkWorld hn (clock w) (ticks w) (heap w) (_logger w)
                             (trace w)).

Definition step (s : Step) : M unit :=
  match s with
  | Emit c => call c
  | SetOptions component_ timefmt => set_options component_ timefmt
  | Construct component_ timefmt flush_ file_ =>
      Logger.__init__ component_ timefmt flush_ file_ ;; ret tt
  | Rename hn => rename hn
  end.

Fixpoint run (p : list Step) : M unit :=
  match p with
  | [] => ret tt
  | s :: p' => step s ;; run p'
  end.

(** The logger that a call goes through. *)
Definition target (w : World) (c : Call) : ref :=
  match c with
  | Method self _ => self
  | Function _ => _logger w
  end.

(** Every reference in use denotes an object. *)
Definition live (w : World) (r : ref) : Prop := r < length (heap w).

(** ** Vocabulary of the statements *)

(** The world after logger [l] has emitted the record [rec]: one more clock
    reading, one more printed event, everything else as before. *)
Definition emitted (w : World) (l : Logger) (rec : dict) : World :=
  mkWorld (hostname w) (clock w) (S (ticks w)) (heap w) (_logger w)
          (trace w ++ [PrintJson rec (file l) (flush l)]).

(** The three entries that [_log] assigns, in the order of assignment. *)
Definition stamp (l : Logger) (now : datetime) : dict :=
  [ (lit "component", component l);
    (lit "host", host l);
    (lit "timestamp", isoformat now) ].

(** The dictionary that each method hands to [json.dumps], entry by entry;
    [call_method_emitted] proves that the methods build exactly this. *)
Definition method_record (l : Logger) (now : datetime) (op : Operation)
  : dict :=
  let typed t data := [(lit "type", value t); (lit "data", data)] in
  match op with
  | op_log_preamble data =>
      [ (lit "host", host l); (lit "type", value PREAMBLE);
        (lit "data", data); (lit "component", component l);
        (lit "timestamp", isoformat now) ]
  | op_log_read data handle =>
      [ (lit "type", value READ); (lit "handle", handle);
        (lit "data", data) ] ++ stamp l now
  | op_log_write data handle =>
      [ (lit "type", value WRITE); (lit "handle", handle);
        (lit "data", data) ] ++ stamp l now
  | op_log_msg data type_ => typed (default INFO type_) data ++ stamp l now
  | op_log_debug data => typed DEBUG data ++ stamp l now
  | op_log_info data => typed INFO data ++ stamp l now
  | op_log_warning data => typed WARNING data ++ stamp l now
  | op_log_error data => typed ERROR data ++ stamp l now
  | op_log_summary data => typed SUMMARY data ++ stamp l now
  end.

(** The method call that each function of the module ends in. *)
Definition forwarded (op : Operation) : Operation :=
  match op with
  | op_log_msg data _ | op_log_debug data | op_log_info data
  | op_log_warning data | op_log_error data | op_log_summary data =>
      op_log_msg data None
  | _ => op
  end.

(** The operation that reaches the logger of a call. *)
Definition sent (c : Call) : Operation :=
  match c with
  | Method _ op => op
  | Function op => forwarded op
  end.

(** The operation that a call names. *)
Definition operation (c : Call) : Operation :=
  match c with
  | Method _ op => op
  | Function op => op
  end.

Definition reads_or_writes (op : Operation) : Prop :=
  match op with
  | op_log_read _ _ | op_log_write _ _ => True
  | _ => False
  end.

(** The events of successive method calls on one logger, the first one at
    clock reading [t]. *)
Fixpoint method_events (l : Logger) (clk : nat -> datetime) (t : nat)
         (ops : list Operation) : list Event :=
  match ops with
  | [] => []
  | op :: ops' =>
      PrintJson (method_record l (clk t) op) (file l) (flush l)
        :: method_events l clk (S t) ops'
  end.

(** A character that needs no escape inside a line. *)
Definition printable (c : N) : Prop := (32 <= c <= 126)%N.

(** Two dictionaries with the same keys, whatever the order. *)
Definition same_keys (d : dict) (ks : list str) : Prop :=
  forall k, In k (keys d) <-> In k ks.

(** The five keys of a message record, in the order of serialization. *)
Definition message_keys : list str :=
  [ lit "type"; lit "data"; lit "component"; lit "host"; lit "timestamp" ].

(** The computation [m] prints, through logger [l], one record with the
    keys [ks], the type [T] and the payload [D]. *)
Definition emits_typed (m : M unit) (w : World) (l : Logger)
           (ks : list str) (T D : str) : Prop :=
  exists rec,
    m w = Some (tt, emitted w l rec) /\
    keys rec = ks /\
    getitem rec (lit "type") = Some T /\
    getitem rec (lit "data") = Some D.

(** The lines of a text: what stands before each line end, and what is
    left after the last one when the text does not end in a line end. *)
Fixpoint split_lines (t : str) : list str :=
  match t with
  | [] => []
  | c :: t' =>
      if decide (c = NEWLINE) then [] :: split_lines t'
      else match split_lines t' with
           | [] => [[c]]
           | line :: rest => (c :: line) :: rest
           end
  end.

(** The events of a trace that went to the stream [s]. *)
Definition events_on (tr : list Event) (s : Sink) : list Event :=
  List.filter (fun e => bool_decide (ev_file e = s)) tr.

(** The world on a machine whose host name is now [hn]. *)
Definition renamed (hn : option str) (w : World) : World :=
  mkWorld hn (clock w) (ticks w) (heap w) (_logger w) (trace w).

(** ** The JSON grammar (RFC 8259), for objects whose members are strings *)

Definition is_hex (c : N) : Prop :=
  (48 <= c <= 57)%N \/ (65 <= c <= 70)%N \/ (97 <= c <= 102)%N.

(** The characters between the quotes of a string: unescaped characters,
    two-character escapes and [\uXXXX]. *)
Inductive json_chars : str -> Prop :=
| jc_end : json_chars []
| jc_char (c : N) (s : str) :
    (32 <= c <= 1114111)%N -> c <> QUOTE -> c <> BACKSLASH ->
    json_chars s -> json_chars (c :: s)
| jc_escape (e : N) (s : str) :
    In e [34; 92; 47; 98; 102; 110; 114; 116]%N ->
    json_chars s -> json_chars (BACKSLASH :: e :: s)
| jc_unicode (a b c d : N) (s : str) :
    is_hex a -> is_hex b -> is_hex c -> is_hex d ->
    json_chars s -> json_chars (BACKSLASH :: 117%N :: a :: b :: c :: d :: s).

Definition json_string (t : str) : Prop :=
  exists body, t = QUOTE :: body ++ [QUOTE] /\ json_chars body.

(** One member or more, a colon and a space after each name, a comma and
    a space between two members. *)
Inductive json_members : str -> Prop :=
| jm_last (k v : str) :
    json_string k -> json_string v -> json_members (k ++ lit ": " ++ v)
| jm_more (k v rest : str) :
    json_string k -> json_string v -> json_members rest ->
    json_members ((k ++ lit ": " ++ v) ++ lit ", " ++ rest).

Definition json_object (t : str) : Prop :=
  t = lit "{}" \/
  exists members, json_members members /\ t = lit "{" ++ members ++ lit "}".

(** A string that the encoder has nothing to do on, and its encoding. *)
Definition plain (s : str) : Prop := Forall (fun c => ESCAPE_ASCII c = false) s.

Definition quoted (s : str) : str := QUOTE :: s ++ [QUOTE].

(** What the constructor of [datetime] accepts, field by field. *)
Definition valid_datetime (t : datetime) : Prop :=
  (1 <= year t <= 9999)%N /\ (1 <= month t <= 12)%N /\
  (1 <= day t <= 31)%N /\ (hour t < 24)%N /\ (minute t < 60)%N /\
  (second t < 60)%N /\ (microsecond t < 1000000)%N.

(** ** Reading an encoded string back *)

(** A Unicode scalar value: a code point that is not a surrogate. *)
Definition scalar (c : N) : Prop :=
  (c < 55296)%N \/ (57344 <= c <= 1114111)%N.

Definition scalar_dict (d : dict) : Prop :=
  Forall (fun kv => Forall scalar (fst kv) /\ Forall scalar (snd kv)) d.

Definition hexval (c : N) : option N :=
  if ((48 <=? c) && (c <=? 57))%N then Some (c - 48)%N
  else if ((97 <=? c) && (c <=? 102))%N then Some (c - 87)%N
  else None.

Definition unhex4 (a b c d : N) : option N :=
  match hexval a, hexval b, hexval c, hexval d with
  | Some x, Some y, Some z, Some u =>
      Some (((x * 16 + y) * 16 + z) * 16 + u)%N
  | _, _, _, _ => None
  end.

Definition unescape_short (e : N) : option N :=
  if (e =? 34)%N then Some 34%N
  else if (e =? 92)%N then Some 92%N
  else if (e =? 98)%N then Some 8%N
  else if (e =? 102)%N then Some 12%N
  else if (e =? 110)%N then Some 10%N
  else if (e =? 114)%N then Some 13%N
  else if (e =? 116)%N then Some 9%N
  else None.

Definition push (c : N) (r : option (str * str)) : option (str * str) :=
  match r with
  | Some (s, rest) => Some (c :: s, rest)
  | None => None
  end.

(** The reader of a string body: the characters up to the closing quote
    with their escapes undone, a [\uXXXX] pair of surrogates taken as one
    character, and the text after the quote.  It gives up on an escape
    that the encoder does not write. *)
Fixpoint scanstring (t : str) : option (str * str) :=
  match t with
  | [] => None
  | c :: t1 =>
      if (c =? QUOTE)%N then Some ([], t1)
      else if (c =? BACKSLASH)%N then
        match t1 with
        | e :: t2 =>
            if (e =? 117)%N then
              match t2 with
              | a :: b :: c' :: d :: t3 =>
                  match unhex4 a b c' d with
                  | Some v =>
                      if ((55296 <=? v) && (v <? 56320))%N then
                        match t3 with
                        | b1 :: u1 :: a2 :: b2 :: c2 :: d2 :: t4 =>
                            if ((b1 =? BACKSLASH) && (u1 =? 117))%N then
                              match unhex4 a2 b2 c2 d2 with
                              | Some lo =>
                                  if ((56320 <=? lo) && (lo <? 57344))%N then
                                    push (65536 + (v - 55296) * 1024
                                          + (lo - 56320))%N
                                         (scanstring t4)
                                  else None
                              | None => None
                              end
                            else None
                        | _ => None
                        end
                      else push v (scanstring t3)
                  | None => None
                  end
              | _ => None
              end
            else
              match unescape_short e with
              | Some v => push v (scanstring t2)
              | None => None
              end
        | [] => None
        end
      else push c (scanstring t1)
  end.

(** What follows an item of an object: the closing brace, or a comma, a
    space and the items that are left. *)
Definition items_text (d : dict) : str :=
  match d with
  | [] => lit "}"
  | _ => lit ", " ++ join (lit ", ") (map encode_item d) ++ lit "}"
  end.

(** ** A concrete machine, for the examples *)

Definition clock0 (n : nat) : datetime :=
  mkdatetime 2024 3 7 9 5 (N.of_nat n) 0.

Definition root0 : Logger := mkLogger (lit "box") (lit "root") false stderr.

Definition world0 : World :=
  mkWorld (Some (lit "box")) clock0 0 [root0] 0 [].

(** The function [log_preamble] on the payload [hi]. *)
Definition preamble0 : Call := Function (op_log_preamble (lit "hi")).

(** A dictionary that already has the three keys that [_log] assigns. *)
Definition crowded0 : dict :=
  [ (lit "host", lit "elsewhere"); (lit "timestamp", lit "never");
    (lit "component", lit "mine") ].

(** A [log_read] whose payload and handle hold line ends, control
    characters, a quote, a backslash and a character beyond the basic
    plane. *)
Definition multiline0 : Call :=
  Method 0 (op_log_read [104; 105; 10; 13; 0; 34; 92]%N
                        [10; 10; 128512]%N).

(** Three method calls. *)
Definition ops0 : list Operation :=
  [ op_log_preamble (lit "hi");
    op_log_read (lit "4096 bytes") (lit "/dev/sda1");
    op_log_error (lit "disk full") ].

(** A program: a preamble, a reconfiguration, the loss of the host name,
    and a read logged through the logger of the import. *)
Definition program0 : list Step :=
  [ Emit preamble0; SetOptions (Some (lit "fsck")) None; Rename None;
    Emit multiline0 ].

(** The world that [program0] leaves. *)
Definition world1 : World :=
  mkWorld None clock0 2
          [root0; mkLogger (lit "box") (lit "fsck") false stderr] 1
          [ PrintJson (method_record root0 (clock0 0)
                         (op_log_preamble (lit "hi"))) stderr false;
            PrintJson (method_record root0 (clock0 1) (sent multiline0))
                      stderr false ].

(** A record whose strings are all scalar values, some of them to be
    escaped. *)
Definition record0 : dict :=
  [ (lit "type", lit "info");
    (lit "data", [104; 105; 10; 34; 92; 233; 8364; 128512]%N) ].

(** * Properties *)

(** ** Dictionaries *)

Lemma getitem_setitem_eq (d : dict) (k v : str) :
  getitem (setitem d k v) k = Some v.
Proof.
  induction d as [|[k' v'] d IH]; simpl.
  - rewrite decide_True; auto.
  - destruct (decide (k' = k)) as [E|E]; simpl.
    + rewrite decide_True; auto.
    + rewrite decide_False; auto.
Qed.

Lemma getitem_setitem_ne (d : dict) (k k0 v : str) :
  k <> k0 -> getitem (setitem d k v) k0 = getitem d k0.
Proof.
  intros Hne. induction d as [|[k' v'] d IH]; simpl.
  - rewrite decide_False; auto.
  - destruct (decide (k' = k)) as [E|E]; simpl.
    + subst k'. rewrite !decide_False; auto.
    + destruct (decide (k' = k0)); auto.
Qed.

Lemma keys_setitem_old (d : dict) (k k0 v : str) :
  In k0 (keys d) -> In k0 (keys (setitem d k v)).
Proof.
  unfold keys. induction d as [|[k' v'] d IH]; simpl; [tauto|].
  intros [E|Hin]; destruct (decide (k' = k)); simpl; auto.
Qed.

Lemma keys_setitem_new (d : dict) (k v : str) :
  In k (keys (setitem d k v)).
Proof.
  unfold keys. induction d as [|[k' v'] d IH]; simpl; [auto|].
  destruct (decide (k' = k)); simpl; auto.
Qed.

Lemma getitem_In_keys (d : dict) (k v : str) :
  getitem d k = Some v -> In k (keys d).
Proof.
  unfold keys. induction d as [|[k' v'] d IH]; simpl; [discriminate|].
  destruct (decide (k' = k)); auto.
Qed.

(** ** The encoder writes printable characters only *)

Lemma hexdigit_printable (d : N) : (d < 16)%N -> printable (hexdigit d).
Proof.
  unfold printable, hexdigit. intros Hd.
  destruct (N.ltb_spec d 10); lia.
Qed.

Lemma hex4_printable (n : N) : Forall printable (hex4 n).
Proof.
  unfold hex4.
  repeat constructor; apply hexdigit_printable; apply N.mod_lt; lia.
Qed.

Lemma u_escape_printable (n : N) : Forall printable (u_escape n).
Proof.
  unfold u_escape. constructor; [unfold printable, BACKSLASH; lia|].
  constructor; [unfold printable; lia|]. apply hex4_printable.
Qed.

Lemma ESCAPE_DCT_printable (c : N) (s : str) :
  ESCAPE_DCT c = Some s -> Forall printable s.
Proof.
  unfold ESCAPE_DCT.
  repeat match goal with
         | |- context [if ?b then _ else _] => destruct b
         end;
    intros E; inversion E; subst;
    try apply u_escape_printable;
    repeat constructor; unfold printable, BACKSLASH, QUOTE; lia.
Qed.

Lemma replace_printable (c : N) : Forall printable (replace c).
Proof.
  unfold replace. destruct (ESCAPE_DCT c) as [s|] eqn:E.
  - eapply ESCAPE_DCT_printable; eauto.
  - destruct (c <? 65536)%N.
    + apply u_escape_printable.
    + apply Forall_app; split; apply u_escape_printable.
Qed.

Lemma encode_char_printable (c : N) : Forall printable (encode_char c).
Proof.
  unfold encode_char. destruct (ESCAPE_ASCII c) eqn:E.
  - apply replace_printable.
  - unfold ESCAPE_ASCII in E.
    apply orb_false_elim in E as [_ E].
    apply negb_false_iff, andb_true_iff in E as [E1 E2].
    apply N.leb_le in E1, E2.
    repeat constructor; assumption.
Qed.

Lemma py_encode_basestring_ascii_printable (s : str) :
  Forall printable (py_encode_basestring_ascii s).
Proof.
  unfold py_encode_basestring_ascii.
  constructor; [unfold printable, QUOTE; lia|].
  apply Forall_app; split.
  - induction s as [|c s IH]; simpl; [constructor|].
    apply Forall_app; split; [apply encode_char_printable | exact IH].
  - repeat constructor; unfold printable, QUOTE; lia.
Qed.

Lemma lit_colon_printable : Forall printable (lit ": ").
Proof. repeat constructor; unfold printable; simpl; lia. Qed.

Lemma lit_comma_printable : Forall printable (lit ", ").
Proof. repeat constructor; unfold printable; simpl; lia. Qed.

Lemma encode_item_printable (kv : str * str) :
  Forall printable (encode_item kv).
Proof.
  unfold encode_item.
  repeat (apply Forall_app; split);
    auto using py_encode_basestring_ascii_printable, lit_colon_printable.
Qed.

Lemma join_printable (sep : str) (l : list str) :
  Forall printable sep -> Forall (Forall printable) l ->
  Forall printable (join sep l).
Proof.
  intros Hsep Hl. induction Hl as [|x l Hx Hl IH]; simpl; [constructor|].
  destruct l as [|y l]; [exact Hx|].
  repeat (apply Forall_app; split); auto.
Qed.

Lemma json_dumps_printable (d : dict) : Forall printable (json_dumps d).
Proof.
  unfold json_dumps.
  repeat (apply Forall_app; split).
  - repeat constructor; unfold printable; simpl; lia.
  - apply join_printable; [apply lit_comma_printable|].
    apply List.Forall_forall. intros x Hx.
    apply in_map_iff in Hx as [kv [<- _]]. apply encode_item_printable.
  - repeat constructor; unfold printable; simpl; lia.
Qed.

Lemma json_dumps_one_line (d : dict) : ~ In NEWLINE (json_dumps d).
Proof.
  intros Hin.
  pose proof (json_dumps_printable d) as Hp.
  rewrite List.Forall_forall in Hp. apply Hp in Hin.
  unfold printable, NEWLINE in Hin. lia.
Qed.

(** ** The timestamp needs no escape *)

Lemma digit_plain (n : N) : ESCAPE_ASCII (digit n) = false.
Proof.
  unfold digit.
  assert (H : (n mod 10 < 10)%N) by (apply N.mod_lt; lia).
  generalize dependent (n mod 10)%N. intros m H.
  unfold ESCAPE_ASCII, BACKSLASH, QUOTE.
  repeat match goal with
         | |- context [N.eqb ?a ?b] => destruct (N.eqb_spec a b); try lia
         | |- context [N.leb ?a ?b] => destruct (N.leb_spec a b); try lia
         end.
Qed.

Lemma dec2_plain (n : N) : Forall (fun c => ESCAPE_ASCII c = false) (dec2 n).
Proof. unfold dec2. repeat constructor; apply digit_plain. Qed.

Lemma isoformat_plain (t : datetime) :
  Forall (fun c => ESCAPE_ASCII c = false) (isoformat t).
Proof.
  unfold isoformat, dec6, dec4.
  destruct (microsecond t =? 0)%N;
    repeat (apply Forall_app; split);
    try apply dec2_plain; repeat constructor.
Qed.

(** Inside the printed line the timestamp stands as [isoformat] made it. *)
Lemma isoformat_verbatim (t : datetime) :
  py_encode_basestring_ascii (isoformat t) = QUOTE :: isoformat t ++ [QUOTE].
Proof.
  unfold py_encode_basestring_ascii. do 2 f_equal.
  pose proof (isoformat_plain t) as H.
  induction H as [|c s Hc Hs IH]; simpl; [reflexivity|].
  unfold encode_char at 1. rewrite Hc, IH. reflexivity.
Qed.

(** Date, [T], time: nineteen characters, and seven more for the
    microseconds when there are some. *)
Lemma isoformat_length (t : datetime) :
  length (isoformat t) = if (microsecond t =? 0)%N then 19%nat else 26%nat.
Proof.
  unfold isoformat, dec6, dec4. destruct (microsecond t =? 0)%N; reflexivity.
Qed.

(** ** What one call does *)

Lemma Logger__log_emitted (self : ref) (msg : dict) (w : World) (l : Logger) :
  heap w !! self = Some l ->
  Logger._log self msg w =
    Some (tt, emitted w l
                (setitem
                   (setitem (setitem msg (lit "component") (component l))
                            (lit "host") (host l))
                   (lit "timestamp") (isoformat (clock w (ticks w))))).
Proof.
  intros Hl. unfold Logger._log, bind, deref. rewrite Hl. reflexivity.
Qed.

Lemma Logger__log_dangling (self : ref) (msg : dict) (w : World) :
  heap w !! self = None -> Logger._log self msg w = None.
Proof.
  intros Hl. unfold Logger._log, bind, deref. rewrite Hl. reflexivity.
Qed.

Lemma call_method_emitted (self : ref) (op : Operation) (w : World)
      (l : Logger) :
  heap w !! self = Some l ->
  call_method self op w =
    Some (tt, emitted w l (method_record l (clock w (ticks w)) op)).
Proof.
  intros Hl.
  destruct op as [data|data handle|data handle|data [t|]|data|data|data|data|data];
    simpl;
    unfold Logger.log_debug, Logger.log_info, Logger.log_warning,
      Logger.log_error, Logger.log_summary, Logger.log_msg,
      Logger.log_read, Logger.log_write, Logger.log_preamble;
    try (unfold bind at 1, deref at 1; rewrite Hl);
    rewrite (Logger__log_emitted _ _ _ _ Hl);
    try destruct t; reflexivity.
Qed.

Lemma call_method_dangling (self : ref) (op : Operation) (w : World) :
  heap w !! self = None -> call_method self op w = None.
Proof.
  intros Hl.
  destruct op; simpl;
    unfold Logger.log_debug, Logger.log_info, Logger.log_warning,
      Logger.log_error, Logger.log_summary, Logger.log_msg,
      Logger.log_read, Logger.log_write, Logger.log_preamble;
    try (unfold bind at 1, deref at 1; rewrite Hl; reflexivity);
    apply Logger__log_dangling; exact Hl.
Qed.

Lemma call_function_forwarded (op : Operation) (w : World) :
  call_function op w = call_method (_logger w) (forwarded op) w.
Proof. destruct op; reflexivity. Qed.

Lemma call_emitted (c : Call) (w : World) (l : Logger) :
  heap w !! target w c = Some l ->
  call c w =
    Some (tt, emitted w l (method_record l (clock w (ticks w)) (sent c))).
Proof.
  destruct c as [self op|op]; simpl; intros Hl.
  - apply call_method_emitted; exact Hl.
  - rewrite call_function_forwarded. apply call_method_emitted; exact Hl.
Qed.

Lemma call_inv (c : Call) (w w' : World) (u : unit) :
  call c w = Some (u, w') ->
  exists l, heap w !! target w c = Some l /\
            w' = emitted w l (method_record l (clock w (ticks w)) (sent c)).
Proof.
  intros Hc. destruct (heap w !! target w c) as [l|] eqn:Hl.
  - exists l. split; [reflexivity|].
    rewrite (call_emitted _ _ _ Hl) in Hc. congruence.
  - exfalso. destruct c as [self op|op]; simpl in *.
    + rewrite (call_method_dangling _ _ _ Hl) in Hc. discriminate.
    + rewrite call_function_forwarded, (call_method_dangling _ _ _ Hl) in Hc.
      discriminate.
Qed.

Lemma emitted_inj (w : World) (l : Logger) (rec rec' : dict) :
  Some (tt, emitted w l rec) = Some (tt, emitted w l rec') -> rec = rec'.
Proof.
  intros E.
  assert (E' : trace (emitted w l rec) = trace (emitted w l rec'))
    by congruence.
  unfold emitted in E'. simpl in E'.
  apply app_inj_tail in E' as [_ E']. congruence.
Qed.

Lemma sink_text_snoc (tr : list Event) (e : Event) (s : Sink) :
  sink_text (tr ++ [e]) s =
    sink_text tr s ++ (if decide (ev_file e = s) then written e else []).
Proof.
  unfold sink_text. rewrite flat_map_app. simpl. rewrite app_nil_r.
  reflexivity.
Qed.

(** The method [Logger.log_msg] emits the type it is given, [info] when
    none is given, and the payload. *)
Lemma Logger_log_msg_emits (self : ref) (D : str) (T : option MessageType)
      (w : World) (l : Logger) :
  heap w !! self = Some l ->
  exists rec,
    Logger.log_msg self D T w = Some (tt, emitted w l rec) /\
    getitem rec (lit "type") = Some (value (default INFO T)) /\
    getitem rec (lit "data") = Some D.
Proof.
  intros Hl. eexists. split.
  - exact (call_method_emitted self (op_log_msg D T) w l Hl).
  - split; reflexivity.
Qed.

(** The function [log_msg] emits [info] whatever type it is given. *)
Lemma log_msg_always_info (D : str) (T : option MessageType) (w : World)
      (l : Logger) :
  heap w !! _logger w = Some l ->
  exists rec,
    log_msg D T w = Some (tt, emitted w l rec) /\
    getitem rec (lit "type") = Some (value INFO) /\
    getitem rec (lit "data") = Some D.
Proof.
  intros Hl. eexists. split.
  - exact (call_emitted (Function (op_log_msg D T)) w l Hl).
  - split; reflexivity.
Qed.

(** The functions that pass every argument on behave as the method of the
    default logger does. *)
Lemma call_function_delegates (op : Operation) (w : World) :
  match op with
  | op_log_preamble _ | op_log_read _ _ | op_log_write _ _
  | op_log_info _ | op_log_msg _ None | op_log_msg _ (Some INFO) => True
  | _ => False
  end ->
  call_function op w = call_method (_logger w) op w.
Proof.
  destruct op as [d|d h|d h|d [[]|]|d|d|d|d|d]; simpl;
    intros H; try contradiction; reflexivity.
Qed.

(** [_log] has the last word on [component], [host] and [timestamp]. *)
Lemma Logger__log_stamped (self : ref) (msg : dict) (w : World) (l : Logger) :
  heap w !! self = Some l ->
  exists rec,
    Logger._log self msg w = Some (tt, emitted w l rec) /\
    getitem rec (lit "component") = Some (component l) /\
    getitem rec (lit "host") = Some (host l) /\
    getitem rec (lit "timestamp") = Some (isoformat (clock w (ticks w))).
Proof.
  intros Hl. eexists. split; [exact (Logger__log_emitted _ msg w l Hl)|].
  repeat split.
  - rewrite !getitem_setitem_ne by discriminate.
    apply getitem_setitem_eq.
  - rewrite getitem_setitem_ne by discriminate.
    apply getitem_setitem_eq.
  - apply getitem_setitem_eq.
Qed.

Lemma call_stamped (c : Call) (w : World) (l : Logger) :
  heap w !! target w c = Some l ->
  exists rec,
    call c w = Some (tt, emitted w l rec) /\
    getitem rec (lit "component") = Some (component l) /\
    getitem rec (lit "host") = Some (host l) /\
    getitem rec (lit "timestamp") = Some (isoformat (clock w (ticks w))).
Proof.
  intros Hl. eexists. split; [exact (call_emitted c w l Hl)|].
  destruct c as [self op|op];
    destruct op as [d|d h|d h|d t|d|d|d|d|d];
    repeat split; reflexivity.
Qed.

(** ** The claims *)

(** C1, at a failing input.  The function [log_debug] of the module and the
    method [log_debug] of the default logger do not emit the same record:
    the function ends in [_logger.log_msg(data)], which leaves the type
    out, so its record says [info] where the method's says [debug]. *)
Theorem log_debug_function_differs_from_method :
  call_function (op_log_debug (lit "x")) world0 =
    Some (tt, emitted world0 root0
                [ (lit "type", lit "info"); (lit "data", lit "x");
                  (lit "component", lit "root"); (lit "host", lit "box");
                  (lit "timestamp", lit "2024-03-07T09:05:00") ]) /\
  call_method (_logger world0) (op_log_debug (lit "x")) world0 =
    Some (tt, emitted world0 root0
                [ (lit "type", lit "debug"); (lit "data", lit "x");
                  (lit "component", lit "root"); (lit "host", lit "box");
                  (lit "timestamp", lit "2024-03-07T09:05:00") ]) /\
  call_function (op_log_debug (lit "x")) world0 <>
    call_method (_logger world0) (op_log_debug (lit "x")) world0.
Proof.
  assert (Hf : call_function (op_log_debug (lit "x")) world0 =
               Some (tt, emitted world0 root0
                 [ (lit "type", lit "info"); (lit "data", lit "x");
                   (lit "component", lit "root"); (lit "host", lit "box");
                   (lit "timestamp", lit "2024-03-07T09:05:00") ]))
    by reflexivity.
  assert (Hm : call_method (_logger world0) (op_log_debug (lit "x")) world0 =
               Some (tt, emitted world0 root0
                 [ (lit "type", lit "debug"); (lit "data", lit "x");
                   (lit "component", lit "root"); (lit "host", lit "box");
                   (lit "timestamp", lit "2024-03-07T09:05:00") ]))
    by reflexivity.
  split; [exact Hf | split; [exact Hm|]].
  rewrite Hf, Hm. intros E.
  apply emitted_inj in E. discriminate E.
Qed.

(** C2, as the claim has it, fails: the record of [log_preamble] goes
    through [_log] as every other record does and so has a [component]
    key.  Here for the payload [hi] on the default logger. *)
Lemma log_preamble_has_component :
  ~ (exists rec,
        Logger.log_preamble 0 (lit "hi") world0 =
          Some (tt, emitted world0 root0 rec) /\
        same_keys rec [lit "type"; lit "data"; lit "host"; lit "timestamp"] /\
        getitem rec (lit "type") = Some (lit "preamble") /\
        getitem rec (lit "data") = Some (lit "hi") /\
        ~ In (lit "component") (keys rec)).
Proof.
  intros [rec [Hrun [_ [_ [_ Hno]]]]].
  assert (Hl : heap world0 !! 0%nat = Some root0) by reflexivity.
  pose proof (call_method_emitted 0%nat (op_log_preamble (lit "hi"))
                world0 root0 Hl) as Hc.
  simpl call_method in Hc. rewrite Hc in Hrun.
  apply emitted_inj in Hrun. subst rec.
  apply Hno. simpl. auto.
Qed.

(** C2, amended.  [log_preamble(D)], as a method and as the function of the
    module, emits a record whose keys are [host], [type], [data],
    [component] and [timestamp], in this order, with [type] equal to
    [preamble], [data] equal to [D] and [component] that of the logger. *)
Theorem log_preamble_record (self : ref) (D : str) (w : World) (l : Logger) :
  heap w !! self = Some l ->
  exists rec,
    Logger.log_preamble self D w = Some (tt, emitted w l rec) /\
    (self = _logger w -> log_preamble D w = Some (tt, emitted w l rec)) /\
    keys rec = [ lit "host"; lit "type"; lit "data"; lit "component";
                 lit "timestamp" ] /\
    same_keys rec [ lit "type"; lit "data"; lit "component"; lit "host";
                    lit "timestamp" ] /\
    getitem rec (lit "type") = Some (lit "preamble") /\
    getitem rec (lit "data") = Some D /\
    getitem rec (lit "component") = Some (component l).
Proof.
  intros Hl.
  exists (method_record l (clock w (ticks w)) (op_log_preamble D)).
  split; [exact (call_method_emitted self (op_log_preamble D) w l Hl)|].
  split.
  { intros ->. exact (call_emitted (Function (op_log_preamble D)) w l Hl). }
  split; [reflexivity|].
  split; [|repeat split; reflexivity].
  intros k. simpl. tauto.
Qed.

Lemma log_preamble_record_witness :
  heap world0 !! 0%nat = Some root0 /\
  exists rec,
    Logger.log_preamble 0 (lit "hi") world0 =
      Some (tt, emitted world0 root0 rec) /\
    (0%nat = _logger world0 ->
     log_preamble (lit "hi") world0 = Some (tt, emitted world0 root0 rec)) /\
    keys rec = [ lit "host"; lit "type"; lit "data"; lit "component";
                 lit "timestamp" ] /\
    same_keys rec [ lit "type"; lit "data"; lit "component"; lit "host";
                    lit "timestamp" ] /\
    getitem rec (lit "type") = Some (lit "preamble") /\
    getitem rec (lit "data") = Some (lit "hi") /\
    getitem rec (lit "component") = Some (component root0).
Proof.
  split; [reflexivity|].
  apply (log_preamble_record 0%nat (lit "hi") world0 root0). reflexivity.
Defined.

(** C3, at a failing input.  The function [log_msg] of the module, called
    with the type [error], prints a record whose type is [info]: the type
    is not passed on to the method.  (The method itself keeps it:
    [Logger_log_msg_emits].) *)
Theorem log_msg_function_drops_type :
  log_msg (lit "disk full") (Some ERROR) world0 =
    Some (tt, emitted world0 root0
                [ (lit "type", lit "info"); (lit "data", lit "disk full");
                  (lit "component", lit "root"); (lit "host", lit "box");
                  (lit "timestamp", lit "2024-03-07T09:05:00") ]) /\
  value ERROR <> lit "info".
Proof. split; [reflexivity | discriminate]. Qed.

(** C4.  Every record emitted by a logging operation, method or function,
    has the keys [type], [data], [component], [host] and [timestamp]; the
    records of [log_read] and [log_write] have the key [handle] too. *)
Theorem emitted_record_keys (c : Call) (w : World) (l : Logger) :
  heap w !! target w c = Some l ->
  exists rec,
    call c w = Some (tt, emitted w l rec) /\
    In (lit "type") (keys rec) /\
    In (lit "data") (keys rec) /\
    In (lit "component") (keys rec) /\
    In (lit "host") (keys rec) /\
    In (lit "timestamp") (keys rec) /\
    (reads_or_writes (operation c) -> In (lit "handle") (keys rec)).
Proof.
  intros Hl. eexists. split; [exact (call_emitted c w l Hl)|].
  destruct c as [self op|op];
    destruct op as [d|d h|d h|d t|d|d|d|d|d];
    simpl; repeat split; auto 10; contradiction.
Qed.

Lemma emitted_record_keys_witness :
  heap world0 !! target world0 (Method 0 (op_log_read (lit "4096 bytes")
                                            (lit "/dev/sda1")))
    = Some root0 /\
  exists rec,
    call (Method 0 (op_log_read (lit "4096 bytes") (lit "/dev/sda1")))
         world0 = Some (tt, emitted world0 root0 rec) /\
    In (lit "type") (keys rec) /\
    In (lit "data") (keys rec) /\
    In (lit "component") (keys rec) /\
    In (lit "host") (keys rec) /\
    In (lit "timestamp") (keys rec) /\
    (reads_or_writes
       (operation (Method 0 (op_log_read (lit "4096 bytes")
                               (lit "/dev/sda1")))) ->
     In (lit "handle") (keys rec)).
Proof.
  split; [reflexivity|].
  apply (emitted_record_keys
           (Method 0 (op_log_read (lit "4096 bytes") (lit "/dev/sda1")))
           world0 root0).
  reflexivity.
Defined.

(** C5.  Whatever dictionary [_log] receives, also one that already has
    [component], [host] or [timestamp] entries, the record it prints
    carries the component and the host of the logger and the time of the
    call under these keys; and so does the record of every logging
    operation, [log_preamble] with its own [host] entry included. *)
Theorem injected_fields_take_precedence (c : Call) (msg : dict) (w : World)
        (l : Logger) :
  heap w !! target w c = Some l ->
  (exists rec,
      Logger._log (target w c) msg w = Some (tt, emitted w l rec) /\
      getitem rec (lit "component") = Some (component l) /\
      getitem rec (lit "host") = Some (host l) /\
      getitem rec (lit "timestamp") = Some (isoformat (clock w (ticks w))))
  /\
  (exists rec,
      call c w = Some (tt, emitted w l rec) /\
      getitem rec (lit "component") = Some (component l) /\
      getitem rec (lit "host") = Some (host l) /\
      getitem rec (lit "timestamp") = Some (isoformat (clock w (ticks w)))).
Proof.
  intros Hl. split.
  - exact (Logger__log_stamped (target w c) msg w l Hl).
  - exact (call_stamped c w l Hl).
Qed.

Lemma injected_fields_take_precedence_witness :
  heap world0 !! target world0 preamble0 = Some root0 /\
  (exists rec,
      Logger._log (target world0 preamble0) crowded0 world0 =
        Some (tt, emitted world0 root0 rec) /\
      getitem rec (lit "component") = Some (component root0) /\
      getitem rec (lit "host") = Some (host root0) /\
      getitem rec (lit "timestamp") =
        Some (isoformat (clock world0 (ticks world0)))) /\
  (exists rec,
      call preamble0 world0 = Some (tt, emitted world0 root0 rec) /\
      getitem rec (lit "component") = Some (component root0) /\
      getitem rec (lit "host") = Some (host root0) /\
      getitem rec (lit "timestamp") =
        Some (isoformat (clock world0 (ticks world0)))).
Proof.
  split; [reflexivity|].
  apply (injected_fields_take_precedence preamble0 crowded0 world0 root0).
  reflexivity.
Defined.

(** C6.  [log_read(D, H)] emits a record with [type] equal to [read],
    [data] equal to [D] and [handle] equal to [H], and [log_write(D, H)]
    one with [type] equal to [write], [data] equal to [D] and [handle]
    equal to [H]; as methods of any logger, and as functions of the
    module on the default logger. *)
Theorem log_read_write_records (self : ref) (D H : str) (w : World)
        (l : Logger) :
  heap w !! self = Some l ->
  exists rd wr,
    Logger.log_read self D H w = Some (tt, emitted w l rd) /\
    Logger.log_write self D H w = Some (tt, emitted w l wr) /\
    (self = _logger w ->
     log_read D H w = Some (tt, emitted w l rd) /\
     log_write D H w = Some (tt, emitted w l wr)) /\
    getitem rd (lit "type") = Some (lit "read") /\
    getitem rd (lit "data") = Some D /\
    getitem rd (lit "handle") = Some H /\
    getitem wr (lit "type") = Some (lit "write") /\
    getitem wr (lit "data") = Some D /\
    getitem wr (lit "handle") = Some H.
Proof.
  intros Hl.
  exists (method_record l (clock w (ticks w)) (op_log_read D H)),
         (method_record l (clock w (ticks w)) (op_log_write D H)).
  split; [exact (call_method_emitted self (op_log_read D H) w l Hl)|].
  split; [exact (call_method_emitted self (op_log_write D H) w l Hl)|].
  split.
  { intros ->. split.
    - exact (call_emitted (Function (op_log_read D H)) w l Hl).
    - exact (call_emitted (Function (op_log_write D H)) w l Hl). }
  repeat split; reflexivity.
Qed.

Lemma log_read_write_records_witness :
  heap world0 !! 0%nat = Some root0 /\
  exists rd wr,
    Logger.log_read 0 (lit "4096 bytes") (lit "/dev/sda1") world0 =
      Some (tt, emitted world0 root0 rd) /\
    Logger.log_write 0 (lit "4096 bytes") (lit "/dev/sda1") world0 =
      Some (tt, emitted world0 root0 wr) /\
    (0%nat = _logger world0 ->
     log_read (lit "4096 bytes") (lit "/dev/sda1") world0 =
       Some (tt, emitted world0 root0 rd) /\
     log_write (lit "4096 bytes") (lit "/dev/sda1") world0 =
       Some (tt, emitted world0 root0 wr)) /\
    getitem rd (lit "type") = Some (lit "read") /\
    getitem rd (lit "data") = Some (lit "4096 bytes") /\
    getitem rd (lit "handle") = Some (lit "/dev/sda1") /\
    getitem wr (lit "type") = Some (lit "write") /\
    getitem wr (lit "data") = Some (lit "4096 bytes") /\
    getitem wr (lit "handle") = Some (lit "/dev/sda1").
Proof.
  split; [reflexivity|].
  apply (log_read_write_records 0%nat (lit "4096 bytes") (lit "/dev/sda1")
           world0 root0).
  reflexivity.
Defined.

(** C10.  One call adds one line to the stream of its logger and nothing
    to any other stream: the characters added are printable ASCII, none
    of them a line end, followed by the one line end that [print] writes.
    This holds for every payload and handle, line ends and control
    characters included. *)
Theorem one_line_per_call (c : Call) (w : World) (l : Logger) :
  heap w !! target w c = Some l ->
  exists w' line,
    call c w = Some (tt, w') /\
    sink_text (trace w') (file l) =
      sink_text (trace w) (file l) ++ line ++ [NEWLINE] /\
    Forall printable line /\
    ~ In NEWLINE line /\
    (forall s, s <> file l -> sink_text (trace w') s = sink_text (trace w) s).
Proof.
  intros Hl.
  exists (emitted w l (method_record l (clock w (ticks w)) (sent c))),
         (json_dumps (method_record l (clock w (ticks w)) (sent c))).
  split; [exact (call_emitted c w l Hl)|].
  unfold emitted; simpl trace.
  split; [|split; [|split]].
  - rewrite sink_text_snoc. simpl ev_file. rewrite decide_True by reflexivity.
    reflexivity.
  - apply json_dumps_printable.
  - apply json_dumps_one_line.
  - intros s Hs. rewrite sink_text_snoc. simpl ev_file.
    rewrite decide_False by congruence. apply app_nil_r.
Qed.

Lemma one_line_per_call_witness :
  heap world0 !! target world0 multiline0 = Some root0 /\
  exists w' line,
    call multiline0 world0 = Some (tt, w') /\
    sink_text (trace w') (file root0) =
      sink_text (trace world0) (file root0) ++ line ++ [NEWLINE] /\
    Forall printable line /\
    ~ In NEWLINE line /\
    (forall s, s <> file root0 ->
               sink_text (trace w') s = sink_text (trace world0) s).
Proof.
  split; [reflexivity|].
  apply (one_line_per_call multiline0 world0 root0). reflexivity.
Defined.

(** ** Construction, reconfiguration and programs *)

Lemma Logger__init__run (component_ timefmt : option str)
      (flush_ : option bool) (file_ : option Sink) (w : World) (h : str) :
  hostname w = Some h ->
  Logger.__init__ component_ timefmt flush_ file_ w =
    Some (length (heap w),
          mkWorld (hostname w) (clock w) (ticks w)
                  (heap w ++ [mkLogger h (default (lit "root") component_)
                                       (default false flush_)
                                       (default stderr file_)])
                  (_logger w) (trace w)).
Proof.
  intros Hh. unfold Logger.__init__, bind, gethostname, alloc.
  destruct w; simpl in *. subst. reflexivity.
Qed.

Lemma Logger__init__inv (component_ timefmt : option str)
      (flush_ : option bool) (file_ : option Sink) (w w' : World) (r : ref) :
  Logger.__init__ component_ timefmt flush_ file_ w = Some (r, w') ->
  exists l, heap w' = heap w ++ [l] /\ r = length (heap w) /\
            trace w' = trace w.
Proof.
  unfold Logger.__init__, bind, gethostname.
  destruct (hostname w) as [h|]; [|discriminate].
  unfold alloc. intros E. inversion E; subst; simpl. eauto.
Qed.

Lemma set_options_run (component_ timefmt : option str) (w : World)
      (h : str) :
  hostname w = Some h ->
  set_options component_ timefmt w =
    Some (tt,
          mkWorld (hostname w) (clock w) (ticks w)
                  (heap w ++ [mkLogger h (default (lit "root") component_)
                                       false stderr])
                  (length (heap w)) (trace w)).
Proof.
  intros Hh. unfold set_options, bind.
  rewrite (Logger__init__run _ _ _ _ _ _ Hh). reflexivity.
Qed.

(** A step only adds objects to the heap and events to the trace. *)
Lemma step_extends (s : Step) (w w' : World) (u : unit) :
  step s w = Some (u, w') ->
  (exists more, heap w' = heap w ++ more) /\
  (exists later, trace w' = trace w ++ later).
Proof.
  destruct s as [c|co tf|co tf fl f|hn]; simpl; intros Hs.
  - apply call_inv in Hs as [l [_ ->]]. simpl. split.
    + exists []. symmetry. apply app_nil_r.
    + eauto.
  - unfold set_options, bind in Hs.
    destruct (Logger.__init__ _ _ _ _ w) as [[r w1]|] eqn:Hi; [|discriminate].
    apply Logger__init__inv in Hi as [l [Hh [_ Ht]]].
    inversion Hs; subst; simpl. split.
    + eauto.
    + exists []. rewrite Ht. symmetry. apply app_nil_r.
  - unfold bind in Hs.
    destruct (Logger.__init__ _ _ _ _ w) as [[r w1]|] eqn:Hi; [|discriminate].
    apply Logger__init__inv in Hi as [l [Hh [_ Ht]]].
    inversion Hs; subst; simpl. split.
    + eauto.
    + exists []. rewrite Ht. symmetry. apply app_nil_r.
  - inversion Hs; subst; simpl.
    split; exists []; symmetry; apply app_nil_r.
Qed.

Lemma run_extends (p : list Step) (w w' : World) (u : unit) :
  run p w = Some (u, w') ->
  (exists more, heap w' = heap w ++ more) /\
  (exists later, trace w' = trace w ++ later).
Proof.
  revert w. induction p as [|s p IH]; simpl; intros w Hr.
  - inversion Hr; subst. split; exists []; symmetry; apply app_nil_r.
  - unfold bind in Hr.
    destruct (step s w) as [[u1 w1]|] eqn:Hs; [|discriminate].
    apply step_extends in Hs as [[m1 Hm1] [t1 Ht1]].
    apply IH in Hr as [[m2 Hm2] [t2 Ht2]].
    split.
    + exists (m1 ++ m2). rewrite Hm2, Hm1. symmetry. apply app_assoc.
    + exists (t1 ++ t2). rewrite Ht2, Ht1. symmetry. apply app_assoc.
Qed.

(** An object stays what it is through every program. *)
Lemma run_keeps_object (p : list Step) (w w' : World) (u : unit) (r : ref)
      (l : Logger) :
  run p w = Some (u, w') -> heap w !! r = Some l -> heap w' !! r = Some l.
Proof.
  intros Hr Hl. apply run_extends in Hr as [[more ->] _].
  apply lookup_app_l_Some. exact Hl.
Qed.

(** Emissions on live loggers succeed; they read the clock and print, and
    leave the heap, the default logger and the host name alone. *)
Lemma run_emissions (cs : list Call) (w : World) :
  Forall (fun c => live w (target w c)) cs ->
  exists w',
    run (map Emit cs) w = Some (tt, w') /\
    heap w' = heap w /\ _logger w' = _logger w /\
    hostname w' = hostname w /\ clock w' = clock w /\
    ticks w' = (ticks w + length cs)%nat.
Proof.
  revert w. induction cs as [|c cs IH]; intros w Hall; simpl.
  - exists w. repeat split; auto.
  - apply Forall_cons in Hall as [Hc Hcs].
    unfold live in Hc. apply lookup_lt_is_Some_2 in Hc as [l Hl].
    unfold bind. rewrite (call_emitted c w l Hl).
    set (w1 := emitted w l _).
    destruct (IH w1) as [w' [Hr [Hh [Hg [Hn [Hk Ht]]]]]].
    { eapply Forall_impl; [exact Hcs|].
      intros c0. destruct c0; simpl; auto. }
    exists w'. split; [exact Hr|].
    rewrite Hh, Hg, Hn, Hk, Ht. simpl. repeat split; lia.
Qed.

Lemma run_emissions_inv (cs : list Call) (w w' : World) (u : unit) :
  run (map Emit cs) w = Some (u, w') ->
  heap w' = heap w /\ _logger w' = _logger w.
Proof.
  revert w. induction cs as [|c cs IH]; simpl; intros w Hr.
  - inversion Hr; subst. auto.
  - unfold bind in Hr.
    destruct (call c w) as [[u1 w1]|] eqn:Hc; [|discriminate].
    apply call_inv in Hc as [l [_ ->]].
    apply IH in Hr as [-> ->]. auto.
Qed.

(** Successive method calls on one logger print [method_events]. *)
Lemma run_methods (ops : list Operation) (self : ref) (w : World)
      (l : Logger) :
  heap w !! self = Some l ->
  run (map (fun op => Emit (Method self op)) ops) w =
    Some (tt, mkWorld (hostname w) (clock w) (ticks w + length ops)
                      (heap w) (_logger w)
                      (trace w ++ method_events l (clock w) (ticks w) ops)).
Proof.
  revert w. induction ops as [|op ops IH]; intros w Hl; simpl.
  - unfold ret. rewrite Nat.add_0_r, app_nil_r. destruct w; reflexivity.
  - unfold bind. rewrite (call_method_emitted self op w l Hl).
    rewrite IH by exact Hl. simpl.
    rewrite <- app_assoc, Nat.add_succ_r. reflexivity.
Qed.

Lemma method_events_ext (l : Logger) (clk1 clk2 : nat -> datetime) (t : nat)
      (ops : list Operation) :
  (forall n, clk1 n = clk2 n) ->
  method_events l clk1 t ops = method_events l clk2 t ops.
Proof.
  intros Hclk. revert t. induction ops as [|op ops IH]; intros t; simpl.
  - reflexivity.
  - rewrite Hclk, IH. reflexivity.
Qed.

Lemma method_events_timestamps (l : Logger) (clk : nat -> datetime) (t : nat)
      (ops : list Operation) :
  Forall (fun e => exists n,
              getitem (ev_msg e) (lit "timestamp") = Some (isoformat (clk n)))
         (method_events l clk t ops).
Proof.
  revert t. induction ops as [|op ops IH]; intros t; simpl; constructor.
  - exists t. destruct op as [d|d h|d h|d ty|d|d|d|d|d]; reflexivity.
  - apply IH.
Qed.

(** Importing the module on the example machine gives [world0]. *)
Lemma import_penlog_world0 :
  import_penlog (Some (lit "box")) clock0 = Some world0.
Proof. reflexivity. Qed.

(** C7.  When the host name resolves, [set_options] constructs one new
    logger, with the supplied component ([root] when none is supplied),
    no flushing and [sys.stderr], and makes it the default; nothing is
    printed and what was printed stays.  After any further emissions the
    functions of the module emit under the new component, the earlier
    records are still there, and a logger that existed before the call
    emits under its own component. *)
Theorem set_options_replaces_default (component_ timefmt : option str)
        (w : World) (h : str) :
  hostname w = Some h ->
  exists w1 new,
    set_options component_ timefmt w = Some (tt, w1) /\
    new = mkLogger h (default (lit "root") component_) false stderr /\
    heap w1 = heap w ++ [new] /\
    heap w1 !! _logger w1 = Some new /\
    ~ live w (_logger w1) /\
    trace w1 = trace w /\
    forall (cs : list Call) (w2 : World),
      run (map Emit cs) w1 = Some (tt, w2) ->
      (exists later, trace w2 = trace w ++ later) /\
      (forall op, exists rec,
          call_function op w2 = Some (tt, emitted w2 new rec) /\
          getitem rec (lit "component") = Some (component new)) /\
      (forall r l op, heap w !! r = Some l ->
          exists rec,
            call_method r op w2 = Some (tt, emitted w2 l rec) /\
            getitem rec (lit "component") = Some (component l)).
Proof.
  intros Hh. do 2 eexists.
  split; [exact (set_options_run component_ timefmt w h Hh)|].
  split; [reflexivity|]. simpl.
  split; [reflexivity|].
  split; [apply list_lookup_middle; reflexivity|].
  split; [unfold live; lia|].
  split; [reflexivity|].
  intros cs w2 Hrun.
  pose proof (run_emissions_inv _ _ _ _ Hrun) as [Hheap Hdef].
  pose proof (run_extends _ _ _ _ Hrun) as [_ Htr].
  simpl in Hheap, Hdef, Htr.
  split; [exact Htr|]. split.
  - intros op.
    assert (Hl : heap w2 !! target w2 (Function op) =
                 Some (mkLogger h (default (lit "root") component_)
                                false stderr)).
    { simpl. rewrite Hheap, Hdef. apply list_lookup_middle. reflexivity. }
    destruct (call_stamped (Function op) w2 _ Hl) as [rec [Hc [Hcomp _]]].
    exists rec. split; assumption.
  - intros r l op Hl.
    assert (Hl2 : heap w2 !! target w2 (Method r op) = Some l).
    { simpl. rewrite Hheap. apply lookup_app_l_Some. exact Hl. }
    destruct (call_stamped (Method r op) w2 _ Hl2) as [rec [Hc [Hcomp _]]].
    exists rec. split; assumption.
Qed.

Lemma set_options_replaces_default_witness :
  hostname world0 = Some (lit "box") /\
  exists w1 new,
    set_options (Some (lit "fsck")) None world0 = Some (tt, w1) /\
    new = mkLogger (lit "box") (default (lit "root") (Some (lit "fsck")))
                   false stderr /\
    heap w1 = heap world0 ++ [new] /\
    heap w1 !! _logger w1 = Some new /\
    ~ live world0 (_logger w1) /\
    trace w1 = trace world0 /\
    forall (cs : list Call) (w2 : World),
      run (map Emit cs) w1 = Some (tt, w2) ->
      (exists later, trace w2 = trace world0 ++ later) /\
      (forall op, exists rec,
          call_function op w2 = Some (tt, emitted w2 new rec) /\
          getitem rec (lit "component") = Some (component new)) /\
      (forall r l op, heap world0 !! r = Some l ->
          exists rec,
            call_method r op w2 = Some (tt, emitted w2 l rec) /\
            getitem rec (lit "component") = Some (component l)).
Proof.
  split; [reflexivity|].
  apply (set_options_replaces_default (Some (lit "fsck")) None world0
           (lit "box")).
  reflexivity.
Defined.

(** C8.  A logger gets its host, the host name of the machine at that
    moment, and its other attributes when it is constructed.  Emissions
    through live loggers always succeed and leave every logger and the
    default reference as they were; and whatever a program does later,
    emissions, reconfigurations, further constructions, a change of the
    host name of the machine, this logger is what it was at construction. *)
Theorem logger_state_is_fixed (component_ timefmt : option str)
        (flush_ : option bool) (file_ : option Sink) (w : World) (h : str) :
  hostname w = Some h ->
  exists self w1 l,
    Logger.__init__ component_ timefmt flush_ file_ w = Some (self, w1) /\
    l = mkLogger h (default (lit "root") component_) (default false flush_)
                 (default stderr file_) /\
    heap w1 !! self = Some l /\
    (forall cs : list Call,
        Forall (fun c => live w1 (target w1 c)) cs ->
        exists w2,
          run (map Emit cs) w1 = Some (tt, w2) /\
          heap w2 = heap w1 /\ _logger w2 = _logger w1) /\
    (forall (p : list Step) (w2 : World),
        run p w1 = Some (tt, w2) -> heap w2 !! self = Some l).
Proof.
  intros Hh. do 3 eexists.
  split; [exact (Logger__init__run component_ timefmt flush_ file_ w h Hh)|].
  split; [reflexivity|].
  assert (Hl : forall w1 : World,
             heap w1 = heap w ++ [mkLogger h (default (lit "root") component_)
                                    (default false flush_)
                                    (default stderr file_)] ->
             heap w1 !! length (heap w) =
               Some (mkLogger h (default (lit "root") component_)
                              (default false flush_) (default stderr file_))).
  { intros w1 ->. apply list_lookup_middle. reflexivity. }
  split; [apply Hl; reflexivity|]. split.
  - intros cs Hcs.
    destruct (run_emissions cs _ Hcs) as [w2 [Hr [Hheap [Hdef _]]]].
    exists w2. auto.
  - intros p w2 Hr. eapply run_keeps_object; [exact Hr|].
    apply Hl. reflexivity.
Qed.

Lemma logger_state_is_fixed_witness :
  hostname world0 = Some (lit "box") /\
  exists self w1 l,
    Logger.__init__ (Some (lit "fsck")) (Some (lit "%H:%M")) (Some true)
                    (Some (stream 3)) world0 = Some (self, w1) /\
    l = mkLogger (lit "box") (default (lit "root") (Some (lit "fsck")))
                 (default false (Some true))
                 (default stderr (Some (stream 3))) /\
    heap w1 !! self = Some l /\
    (forall cs : list Call,
        Forall (fun c => live w1 (target w1 c)) cs ->
        exists w2,
          run (map Emit cs) w1 = Some (tt, w2) /\
          heap w2 = heap w1 /\ _logger w2 = _logger w1) /\
    (forall (p : list Step) (w2 : World),
        run p w1 = Some (tt, w2) -> heap w2 !! self = Some l).
Proof.
  split; [reflexivity|].
  apply (logger_state_is_fixed (Some (lit "fsck")) (Some (lit "%H:%M"))
           (Some true) (Some (stream 3)) world0 (lit "box")).
  reflexivity.
Defined.

(** C9.  The time format changes nothing.  Two constructions that differ
    in [timefmt] alone, on machines with the same host name and the same
    clock, give loggers with the same attributes; the same method calls on
    the two loggers succeed and print the same events; and each of these
    events has, as its timestamp, the ISO format of a clock reading.  On
    one machine the two constructions, and the two calls of [set_options],
    give the same result. *)
Theorem timefmt_has_no_effect (component_ tf1 tf2 : option str)
        (flush_ : option bool) (file_ : option Sink) (wa wb : World)
        (h : str) (ops : list Operation) :
  hostname wa = Some h ->
  hostname wb = Some h ->
  (forall n, clock wa n = clock wb n) ->
  ticks wa = ticks wb ->
  Logger.__init__ component_ tf1 flush_ file_ wa =
    Logger.__init__ component_ tf2 flush_ file_ wa /\
  set_options component_ tf1 wa = set_options component_ tf2 wa /\
  exists ra rb wa1 wb1 wa2 wb2 evs,
    Logger.__init__ component_ tf1 flush_ file_ wa = Some (ra, wa1) /\
    Logger.__init__ component_ tf2 flush_ file_ wb = Some (rb, wb1) /\
    heap wa1 !! ra = heap wb1 !! rb /\
    run (map (fun op => Emit (Method ra op)) ops) wa1 = Some (tt, wa2) /\
    run (map (fun op => Emit (Method rb op)) ops) wb1 = Some (tt, wb2) /\
    trace wa2 = trace wa ++ evs /\
    trace wb2 = trace wb ++ evs /\
    length evs = length ops /\
    Forall (fun e => exists n,
                getitem (ev_msg e) (lit "timestamp") =
                  Some (isoformat (clock wa n))) evs.
Proof.
  intros Ha Hb Hclk Ht.
  split; [reflexivity|]. split; [reflexivity|].
  set (l := mkLogger h (default (lit "root") component_)
                     (default false flush_) (default stderr file_)).
  pose proof (Logger__init__run component_ tf1 flush_ file_ wa h Ha) as Ia.
  pose proof (Logger__init__run component_ tf2 flush_ file_ wb h Hb) as Ib.
  fold l in Ia, Ib.
  set (wa1 := mkWorld _ _ _ (heap wa ++ [l]) _ _) in Ia.
  set (wb1 := mkWorld _ _ _ (heap wb ++ [l]) _ _) in Ib.
  assert (La : heap wa1 !! length (heap wa) = Some l)
    by (apply list_lookup_middle; reflexivity).
  assert (Lb : heap wb1 !! length (heap wb) = Some l)
    by (apply list_lookup_middle; reflexivity).
  exists (length (heap wa)), (length (heap wb)), wa1, wb1.
  do 2 eexists. exists (method_events l (clock wa) (ticks wa) ops).
  split; [exact Ia|]. split; [exact Ib|].
  split; [transitivity (Some l); [exact La | symmetry; exact Lb]|].
  split; [exact (run_methods ops _ wa1 l La)|].
  split; [exact (run_methods ops _ wb1 l Lb)|].
  simpl. split; [reflexivity|]. split.
  - rewrite <- Ht.
    rewrite (method_events_ext l (clock wb) (clock wa)) by (intros; auto).
    reflexivity.
  - split.
    + generalize (ticks wa). induction ops as [|op ops IH]; intros t; simpl;
        [reflexivity | rewrite IH; reflexivity].
    + apply method_events_timestamps.
Qed.

Lemma timefmt_has_no_effect_witness :
  hostname world0 = Some (lit "box") /\
  hostname world0 = Some (lit "box") /\
  (forall n, clock world0 n = clock world0 n) /\
  ticks world0 = ticks world0 /\
  Logger.__init__ (Some (lit "fsck")) (Some (lit "%c")) None None world0 =
    Logger.__init__ (Some (lit "fsck")) (Some (lit "%H:%M")) None None
                    world0 /\
  set_options (Some (lit "fsck")) (Some (lit "%c")) world0 =
    set_options (Some (lit "fsck")) (Some (lit "%H:%M")) world0 /\
  exists ra rb wa1 wb1 wa2 wb2 evs,
    Logger.__init__ (Some (lit "fsck")) (Some (lit "%c")) None None world0 =
      Some (ra, wa1) /\
    Logger.__init__ (Some (lit "fsck")) (Some (lit "%H:%M")) None None
                    world0 = Some (rb, wb1) /\
    heap wa1 !! ra = heap wb1 !! rb /\
    run (map (fun op => Emit (Method ra op)) ops0) wa1 = Some (tt, wa2) /\
    run (map (fun op => Emit (Method rb op)) ops0) wb1 = Some (tt, wb2) /\
    trace wa2 = trace world0 ++ evs /\
    trace wb2 = trace world0 ++ evs /\
    length evs = length ops0 /\
    Forall (fun e => exists n,
                getitem (ev_msg e) (lit "timestamp") =
                  Some (isoformat (clock world0 n))) evs.
Proof.
  split; [reflexivity|]. split; [reflexivity|].
  split; [intros n; reflexivity|]. split; [reflexivity|].
  apply (timefmt_has_no_effect (Some (lit "fsck")) (Some (lit "%c"))
           (Some (lit "%H:%M")) None None world0 world0 (lit "box") ops0);
    reflexivity.
Defined.

(** * Further properties of the code *)

(** ** Dictionaries and what [_log] does to them *)

Lemma keys_setitem_known (d : dict) (k v : str) :
  In k (keys d) -> keys (setitem d k v) = keys d.
Proof.
  unfold keys. induction d as [|[k' v'] d IH]; simpl; [tauto|].
  intros Hin. destruct (decide (k' = k)) as [E|E]; simpl; [reflexivity|].
  f_equal. apply IH. destruct Hin; [contradiction | assumption].
Qed.

Lemma keys_setitem_fresh (d : dict) (k v : str) :
  ~ In k (keys d) -> keys (setitem d k v) = keys d ++ [k].
Proof.
  unfold keys. induction d as [|[k' v'] d IH]; simpl; [reflexivity|].
  intros Hin. destruct (decide (k' = k)) as [E|E]; simpl.
  - exfalso. auto.
  - f_equal. apply IH. tauto.
Qed.

Lemma key_in_dec (k : str) (ks : list str) : {In k ks} + {~ In k ks}.
Proof. apply List.In_dec. intros x y. exact (decide (x = y)). Qed.

Lemma keys_setitem_grows (d : dict) (k v : str) :
  exists more, keys (setitem d k v) = keys d ++ more /\
               (forall k', In k' more -> k' = k).
Proof.
  destruct (key_in_dec k (keys d)) as [Hin|Hin].
  - exists []. rewrite keys_setitem_known by exact Hin.
    rewrite app_nil_r. split; [reflexivity | intros k' F; destruct F].
  - exists [k]. rewrite keys_setitem_fresh by exact Hin.
    split; [reflexivity|]. intros k' [E|F]; [auto | destruct F].
Qed.

Lemma keys_setitem_NoDup (d : dict) (k v : str) :
  List.NoDup (keys d) -> List.NoDup (keys (setitem d k v)).
Proof.
  intros Hnd.
  destruct (key_in_dec k (keys d)) as [Hin|Hin].
  - rewrite keys_setitem_known by exact Hin. exact Hnd.
  - rewrite keys_setitem_fresh by exact Hin.
    apply List.NoDup_app; [exact Hnd | repeat constructor; simpl; tauto |].
    intros x Hx [E|F]; [subst x; contradiction | destruct F].
Qed.

Lemma keys_setitem_In (d : dict) (k v k' : str) :
  In k' (keys (setitem d k v)) <-> In k' (keys d) \/ k' = k.
Proof.
  destruct (keys_setitem_grows d k v) as [more [E Hmore]]. split.
  - rewrite E, in_app_iff. intros [H|H]; auto.
  - intros [H | ->]; [apply keys_setitem_old; exact H|].
    apply keys_setitem_new.
Qed.

(** X1.  [_log] changes no entry of the dictionary it is given other than
    [component], [host] and [timestamp]: under any other key the printed
    record holds what the caller put there, or nothing when the caller put
    nothing. *)
Theorem Logger__log_keeps_entries (self : ref) (msg : dict) (k : str)
        (w : World) (l : Logger) :
  heap w !! self = Some l ->
  k <> lit "component" -> k <> lit "host" -> k <> lit "timestamp" ->
  exists rec,
    Logger._log self msg w = Some (tt, emitted w l rec) /\
    getitem rec k = getitem msg k.
Proof.
  intros Hl Hc Hh Ht. eexists.
  split; [exact (Logger__log_emitted self msg w l Hl)|].
  rewrite !getitem_setitem_ne by congruence. reflexivity.
Qed.

Lemma Logger__log_keeps_entries_witness :
  heap world0 !! 0%nat = Some root0 /\
  lit "pid" <> lit "component" /\ lit "pid" <> lit "host" /\
  lit "pid" <> lit "timestamp" /\
  exists rec,
    Logger._log 0 ((lit "pid", lit "42") :: crowded0) world0 =
      Some (tt, emitted world0 root0 rec) /\
    getitem rec (lit "pid") =
      getitem ((lit "pid", lit "42") :: crowded0) (lit "pid").
Proof.
  assert (H1 : lit "pid" <> lit "component") by discriminate.
  assert (H2 : lit "pid" <> lit "host") by discriminate.
  assert (H3 : lit "pid" <> lit "timestamp") by discriminate.
  split; [reflexivity|]. do 3 (split; [assumption|]).
  exact (Logger__log_keeps_entries 0%nat ((lit "pid", lit "42") :: crowded0)
           (lit "pid") world0 root0 eq_refl H1 H2 H3).
Defined.

(** X2.  [_log] keeps the keys of its dictionary in their places, puts
    those of [component], [host] and [timestamp] that are missing after
    them, and never makes a key appear twice: a dictionary without a
    repeated key is printed as a record without a repeated key. *)
Theorem Logger__log_keys (self : ref) (msg : dict) (w : World) (l : Logger) :
  heap w !! self = Some l ->
  List.NoDup (keys msg) ->
  exists rec more,
    Logger._log self msg w = Some (tt, emitted w l rec) /\
    keys rec = keys msg ++ more /\
    (forall k, In k more ->
               k = lit "component" \/ k = lit "host" \/ k = lit "timestamp") /\
    (forall k, In k (keys rec) <->
               In k (keys msg) \/ k = lit "component" \/ k = lit "host" \/
               k = lit "timestamp") /\
    List.NoDup (keys rec).
Proof.
  intros Hl Hnd.
  set (d1 := setitem msg (lit "component") (component l)).
  set (d2 := setitem d1 (lit "host") (host l)).
  set (d3 := setitem d2 (lit "timestamp") (isoformat (clock w (ticks w)))).
  destruct (keys_setitem_grows msg (lit "component") (component l))
    as [m1 [E1 M1]].
  destruct (keys_setitem_grows d1 (lit "host") (host l)) as [m2 [E2 M2]].
  destruct (keys_setitem_grows d2 (lit "timestamp")
              (isoformat (clock w (ticks w)))) as [m3 [E3 M3]].
  fold d1 in E1. fold d2 in E2. fold d3 in E3.
  exists d3, (m1 ++ m2 ++ m3).
  split; [exact (Logger__log_emitted self msg w l Hl)|].
  split; [rewrite E3, E2, E1, <- !app_assoc; reflexivity|].
  split.
  { intros k Hk. rewrite !in_app_iff in Hk.
    destruct Hk as [H|[H|H]]; [apply M1 in H | apply M2 in H | apply M3 in H];
      auto. }
  split.
  { intros k. unfold d3, d2, d1. rewrite !keys_setitem_In. tauto. }
  unfold d3, d2, d1. do 3 apply keys_setitem_NoDup. exact Hnd.
Qed.

Lemma Logger__log_keys_witness :
  heap world0 !! 0%nat = Some root0 /\
  List.NoDup (keys crowded0) /\
  exists rec more,
    Logger._log 0 crowded0 world0 = Some (tt, emitted world0 root0 rec) /\
    keys rec = keys crowded0 ++ more /\
    (forall k, In k more ->
               k = lit "component" \/ k = lit "host" \/ k = lit "timestamp") /\
    (forall k, In k (keys rec) <->
               In k (keys crowded0) \/ k = lit "component" \/
               k = lit "host" \/ k = lit "timestamp") /\
    List.NoDup (keys rec).
Proof.
  assert (Hnd : List.NoDup (keys crowded0)).
  { repeat constructor; simpl; intuition discriminate. }
  split; [reflexivity|]. split; [exact Hnd|].
  exact (Logger__log_keys 0%nat crowded0 world0 root0 eq_refl Hnd).
Defined.

(** ** The methods and the functions of the module *)

Lemma Logger_log_msg_typed (self : ref) (D : str) (T : MessageType)
      (w : World) (l : Logger) :
  heap w !! self = Some l ->
  emits_typed (Logger.log_msg self D (Some T)) w l message_keys (value T) D.
Proof.
  intros Hl. eexists.
  split; [exact (call_method_emitted self (op_log_msg D (Some T)) w l Hl)|].
  repeat split; reflexivity.
Qed.

(** X3.  The five convenience methods emit a message record, keys [type],
    [data], [component], [host], [timestamp] in this order, with the
    payload they are given and the type that their name says. *)
Theorem method_wrappers_fix_type (self : ref) (D : str) (w : World)
        (l : Logger) :
  heap w !! self = Some l ->
  emits_typed (Logger.log_debug self D) w l message_keys (lit "debug") D /\
  emits_typed (Logger.log_info self D) w l message_keys (lit "info") D /\
  emits_typed (Logger.log_warning self D) w l message_keys (lit "warning") D /\
  emits_typed (Logger.log_error self D) w l message_keys (lit "error") D /\
  emits_typed (Logger.log_summary self D) w l message_keys (lit "summary") D.
Proof.
  intros Hl. repeat split.
  - exact (Logger_log_msg_typed self D DEBUG w l Hl).
  - exact (Logger_log_msg_typed self D INFO w l Hl).
  - exact (Logger_log_msg_typed self D WARNING w l Hl).
  - exact (Logger_log_msg_typed self D ERROR w l Hl).
  - exact (Logger_log_msg_typed self D SUMMARY w l Hl).
Qed.

Lemma method_wrappers_fix_type_witness :
  heap world0 !! 0%nat = Some root0 /\
  emits_typed (Logger.log_debug 0 (lit "x")) world0 root0 message_keys
              (lit "debug") (lit "x") /\
  emits_typed (Logger.log_info 0 (lit "x")) world0 root0 message_keys
              (lit "info") (lit "x") /\
  emits_typed (Logger.log_warning 0 (lit "x")) world0 root0 message_keys
              (lit "warning") (lit "x") /\
  emits_typed (Logger.log_error 0 (lit "x")) world0 root0 message_keys
              (lit "error") (lit "x") /\
  emits_typed (Logger.log_summary 0 (lit "x")) world0 root0 message_keys
              (lit "summary") (lit "x").
Proof.
  split; [reflexivity|].
  exact (method_wrappers_fix_type 0%nat (lit "x") world0 root0 eq_refl).
Defined.

(** X4.  The method [log_msg] checks nothing about the type: given [read],
    [write] or [preamble] it prints a record of that type with the five
    keys of a message, hence a [read] or [write] record without [handle]
    and a [preamble] record with its keys in the order of a message. *)
Theorem Logger_log_msg_any_type (self : ref) (D : str) (T : MessageType)
        (w : World) (l : Logger) :
  heap w !! self = Some l ->
  exists rec,
    Logger.log_msg self D (Some T) w = Some (tt, emitted w l rec) /\
    keys rec = message_keys /\
    getitem rec (lit "type") = Some (value T) /\
    getitem rec (lit "data") = Some D /\
    getitem rec (lit "handle") = None.
Proof.
  intros Hl. eexists.
  split; [exact (call_method_emitted self (op_log_msg D (Some T)) w l Hl)|].
  repeat split; reflexivity.
Qed.

Lemma Logger_log_msg_any_type_witness :
  heap world0 !! 0%nat = Some root0 /\
  exists rec,
    Logger.log_msg 0 (lit "4096 bytes") (Some READ) world0 =
      Some (tt, emitted world0 root0 rec) /\
    keys rec = message_keys /\
    getitem rec (lit "type") = Some (value READ) /\
    getitem rec (lit "data") = Some (lit "4096 bytes") /\
    getitem rec (lit "handle") = None.
Proof.
  split; [reflexivity|].
  exact (Logger_log_msg_any_type 0%nat (lit "4096 bytes") READ world0 root0
           eq_refl).
Defined.


(** X6.  The functions [log_msg], [log_debug], [log_info], [log_warning],
    [log_error] and [log_summary] of the module all print, through the
    default logger, a message record with the payload they are given and
    the type [info], whatever type is named or passed. *)
Theorem module_messages_emit_info (D : str) (T : option MessageType)
        (w : World) (l : Logger) :
  heap w !! _logger w = Some l ->
  emits_typed (log_msg D T) w l message_keys (lit "info") D /\
  emits_typed (log_debug D) w l message_keys (lit "info") D /\
  emits_typed (log_info D) w l message_keys (lit "info") D /\
  emits_typed (log_warning D) w l message_keys (lit "info") D /\
  emits_typed (log_error D) w l message_keys (lit "info") D /\
  emits_typed (log_summary D) w l message_keys (lit "info") D.
Proof.
  intros Hl.
  assert (H : emits_typed (Logger.log_msg (_logger w) D None) w l
                          message_keys (lit "info") D).
  { eexists.
    split; [exact (call_method_emitted _ (op_log_msg D None) w l Hl)|].
    repeat split; reflexivity. }
  repeat split; exact H.
Qed.

Lemma module_messages_emit_info_witness :
  heap world0 !! _logger world0 = Some root0 /\
  emits_typed (log_msg (lit "x") (Some SUMMARY)) world0 root0 message_keys
              (lit "info") (lit "x") /\
  emits_typed (log_debug (lit "x")) world0 root0 message_keys
              (lit "info") (lit "x") /\
  emits_typed (log_info (lit "x")) world0 root0 message_keys
              (lit "info") (lit "x") /\
  emits_typed (log_warning (lit "x")) world0 root0 message_keys
              (lit "info") (lit "x") /\
  emits_typed (log_error (lit "x")) world0 root0 message_keys
              (lit "info") (lit "x") /\
  emits_typed (log_summary (lit "x")) world0 root0 message_keys
              (lit "info") (lit "x").
Proof.
  split; [reflexivity|].
  exact (module_messages_emit_info (lit "x") (Some SUMMARY) world0 root0
           eq_refl).
Defined.

(** X7.  The members of [MessageType] have pairwise different values: the
    type of a record tells which member was logged. *)
Theorem MessageType_value_inj (t1 t2 : MessageType) :
  value t1 = value t2 -> t1 = t2.
Proof. destruct t1, t2; intros E; try reflexivity; discriminate E. Qed.

Lemma MessageType_value_inj_witness :
  value WARNING = value WARNING /\ WARNING = WARNING.
Proof.
  split; [reflexivity|].
  exact (MessageType_value_inj WARNING WARNING eq_refl).
Defined.

(** ** Construction and the default logger *)

Lemma Logger__init__raises (component_ timefmt : option str)
      (flush_ : option bool) (file_ : option Sink) (w : World) :
  hostname w = None ->
  Logger.__init__ component_ timefmt flush_ file_ w = None.
Proof.
  intros Hh. unfold Logger.__init__, bind, gethostname. rewrite Hh.
  reflexivity.
Qed.

Lemma set_options_raises (component_ timefmt : option str) (w : World) :
  hostname w = None -> set_options component_ timefmt w = None.
Proof.
  intros Hh. unfold set_options, bind.
  rewrite (Logger__init__raises _ _ _ _ _ Hh). reflexivity.
Qed.

(** X8.  A logger can be constructed exactly when the host name of the
    machine resolves: otherwise [Logger(...)] raises, and with it
    [set_options] and the import of the module, which construct one. *)
Theorem construction_needs_host_name (component_ timefmt : option str)
        (flush_ : option bool) (file_ : option Sink) (w : World) :
  (Logger.__init__ component_ timefmt flush_ file_ w = None <->
   hostname w = None) /\
  (set_options component_ timefmt w = None <-> hostname w = None) /\
  (import_penlog (hostname w) (clock w) = None <-> hostname w = None).
Proof.
  destruct (hostname w) as [h|] eqn:Hh.
  - rewrite (Logger__init__run _ _ _ _ _ _ Hh), (set_options_run _ _ _ _ Hh).
    repeat split; intros E; discriminate E.
  - rewrite (Logger__init__raises _ _ _ _ _ Hh), (set_options_raises _ _ _ Hh).
    repeat split; reflexivity.
Qed.

Lemma import_penlog_inv (hn : option str) (clk : nat -> datetime)
      (w0 : World) :
  import_penlog hn clk = Some w0 ->
  exists h, hn = Some h /\
            w0 = mkWorld (Some h) clk 0
                         [mkLogger h (lit "root") false stderr] 0 [].
Proof.
  destruct hn as [h|]; [|discriminate].
  intros E. exists h. split; [reflexivity|].
  assert (E' : import_penlog (Some h) clk =
               Some (mkWorld (Some h) clk 0
                             [mkLogger h (lit "root") false stderr] 0 []))
    by reflexivity.
  congruence.
Qed.

(** A step keeps the default reference on a live object. *)
Lemma step_live (s : Step) (w w' : World) (u : unit) :
  live w (_logger w) -> step s w = Some (u, w') -> live w' (_logger w').
Proof.
  unfold live. intros Hlive Hs.
  destruct s as [c|co tf|co tf fl f|hn]; simpl in Hs.
  - apply call_inv in Hs as [l [_ ->]]. exact Hlive.
  - destruct (hostname w) as [h|] eqn:Hh.
    + rewrite (set_options_run _ _ _ _ Hh) in Hs.
      inversion Hs; subst; simpl. rewrite length_app. simpl. lia.
    + rewrite (set_options_raises _ _ _ Hh) in Hs. discriminate.
  - unfold bind in Hs. destruct (hostname w) as [h|] eqn:Hh.
    + rewrite (Logger__init__run _ _ _ _ _ _ Hh) in Hs.
      inversion Hs; subst; simpl. rewrite length_app. simpl. lia.
    + rewrite (Logger__init__raises _ _ _ _ _ Hh) in Hs. discriminate.
  - inversion Hs; subst; simpl. exact Hlive.
Qed.

Lemma run_live (p : list Step) (w w' : World) (u : unit) :
  live w (_logger w) -> run p w = Some (u, w') -> live w' (_logger w').
Proof.
  revert w. induction p as [|s p IH]; simpl; intros w Hlive Hr.
  - inversion Hr; subst. exact Hlive.
  - unfold bind in Hr.
    destruct (step s w) as [[u1 w1]|] eqn:Hs; [|discriminate].
    eapply IH; [|exact Hr]. eapply step_live; eauto.
Qed.

(** X9.  From the import of the module on, whatever the program does, the
    default reference denotes a logger: every function of the module
    succeeds and prints one record through it. *)
Theorem default_logger_stays_live (hn : option str) (clk : nat -> datetime)
        (w0 w : World) (p : list Step) :
  import_penlog hn clk = Some w0 ->
  run p w0 = Some (tt, w) ->
  live w (_logger w) /\
  forall op, exists l rec,
      heap w !! _logger w = Some l /\
      call_function op w = Some (tt, emitted w l rec).
Proof.
  intros Hi Hr.
  apply import_penlog_inv in Hi as [h [-> ->]].
  assert (Hlive : live w (_logger w)).
  { eapply run_live; [|exact Hr]. unfold live. simpl. lia. }
  split; [exact Hlive|]. intros op.
  unfold live in Hlive. apply lookup_lt_is_Some_2 in Hlive as [l Hl].
  exists l. eexists. split; [exact Hl|].
  exact (call_emitted (Function op) w l Hl).
Qed.

Lemma default_logger_stays_live_witness :
  import_penlog (Some (lit "box")) clock0 = Some world0 /\
  run program0 world0 = Some (tt, world1) /\
  live world1 (_logger world1) /\
  forall op, exists l rec,
      heap world1 !! _logger world1 = Some l /\
      call_function op world1 = Some (tt, emitted world1 l rec).
Proof.
  assert (Hi : import_penlog (Some (lit "box")) clock0 = Some world0)
    by reflexivity.
  assert (Hr : run program0 world0 = Some (tt, world1)) by reflexivity.
  split; [exact Hi|]. split; [exact Hr|].
  exact (default_logger_stays_live _ _ _ _ _ Hi Hr).
Defined.

(** X10.  An emission does not ask the machine for its name: the record
    carries the host that the logger got at construction, and the call
    prints the same record, and succeeds as well, when the machine has
    another name by now or none that resolves. *)
Theorem emission_ignores_host_name (c : Call) (w : World) (l : Logger)
        (hn : option str) :
  heap w !! target w c = Some l ->
  exists rec,
    call c w = Some (tt, emitted w l rec) /\
    call c (renamed hn w) = Some (tt, emitted (renamed hn w) l rec) /\
    getitem rec (lit "host") = Some (host l).
Proof.
  intros Hl. exists (method_record l (clock w (ticks w)) (sent c)).
  split; [exact (call_emitted c w l Hl)|]. split.
  - assert (Hl' : heap (renamed hn w) !! target (renamed hn w) c = Some l).
    { destruct c; exact Hl. }
    exact (call_emitted c (renamed hn w) l Hl').
  - destruct c as [self op|op];
      destruct op as [d|d h|d h|d t|d|d|d|d|d]; reflexivity.
Qed.

Lemma emission_ignores_host_name_witness :
  heap world0 !! target world0 preamble0 = Some root0 /\
  exists rec,
    call preamble0 world0 = Some (tt, emitted world0 root0 rec) /\
    call preamble0 (renamed None world0) =
      Some (tt, emitted (renamed None world0) root0 rec) /\
    getitem rec (lit "host") = Some (host root0).
Proof.
  split; [reflexivity|].
  exact (emission_ignores_host_name preamble0 world0 root0 None eq_refl).
Defined.

(** ** Sequences of calls and the text of a stream *)

Lemma method_events_lookup (l : Logger) (clk : nat -> datetime)
      (ops : list Operation) (t i : nat) (op : Operation) :
  ops !! i = Some op ->
  method_events l clk t ops !! i =
    Some (PrintJson (method_record l (clk (t + i)%nat) op) (file l) (flush l)).
Proof.
  revert t i. induction ops as [|o ops IH]; intros t i Hi.
  - destruct i; discriminate Hi.
  - destruct i as [|i]; simpl in *.
    + inversion Hi; subst. rewrite Nat.add_0_r. reflexivity.
    + rewrite (IH (S t) i Hi). rewrite Nat.add_succ_r. reflexivity.
Qed.

Lemma method_events_length (l : Logger) (clk : nat -> datetime) (t : nat)
      (ops : list Operation) :
  length (method_events l clk t ops) = length ops.
Proof.
  revert t. induction ops as [|o ops IH]; intros t; simpl;
    [reflexivity | rewrite IH; reflexivity].
Qed.

(** X11.  Successive method calls on one logger all succeed, read the
    clock once each and print one event each, in the order of the calls:
    the event of call number [i] holds the record of that call stamped
    with clock reading number [i] after the start, and goes to the file of
    the logger with the flush flag of the logger. *)
Theorem successive_calls_print_in_order (ops : list Operation) (self : ref)
        (w : World) (l : Logger) :
  heap w !! self = Some l ->
  exists w' evs,
    run (map (fun op => Emit (Method self op)) ops) w = Some (tt, w') /\
    ticks w' = (ticks w + length ops)%nat /\
    trace w' = trace w ++ evs /\
    length evs = length ops /\
    forall i op, ops !! i = Some op ->
      exists e,
        evs !! i = Some e /\
        ev_msg e = method_record l (clock w (ticks w + i)%nat) op /\
        getitem (ev_msg e) (lit "timestamp") =
          Some (isoformat (clock w (ticks w + i)%nat)) /\
        ev_file e = file l /\ ev_flush e = flush l.
Proof.
  intros Hl. do 2 eexists.
  split; [exact (run_methods ops self w l Hl)|]. simpl.
  split; [reflexivity|]. split; [reflexivity|].
  split; [apply method_events_length|].
  intros i op Hi. eexists.
  split; [exact (method_events_lookup l (clock w) ops (ticks w) i op Hi)|].
  simpl. split; [reflexivity|].
  split; [|split; reflexivity].
  destruct op as [d|d h|d h|d t|d|d|d|d|d]; reflexivity.
Qed.

Lemma successive_calls_print_in_order_witness :
  heap world0 !! 0%nat = Some root0 /\
  exists w' evs,
    run (map (fun op => Emit (Method 0 op)) ops0) world0 = Some (tt, w') /\
    ticks w' = (ticks world0 + length ops0)%nat /\
    trace w' = trace world0 ++ evs /\
    length evs = length ops0 /\
    forall i op, ops0 !! i = Some op ->
      exists e,
        evs !! i = Some e /\
        ev_msg e = method_record root0 (clock world0 (ticks world0 + i)%nat)
                                 op /\
        getitem (ev_msg e) (lit "timestamp") =
          Some (isoformat (clock world0 (ticks world0 + i)%nat)) /\
        ev_file e = file root0 /\ ev_flush e = flush root0.
Proof.
  split; [reflexivity|].
  exact (successive_calls_print_in_order ops0 0%nat world0 root0 eq_refl).
Defined.

Lemma sink_text_app (tr1 tr2 : list Event) (s : Sink) :
  sink_text (tr1 ++ tr2) s = sink_text tr1 s ++ sink_text tr2 s.
Proof. unfold sink_text. apply flat_map_app. Qed.

(** X12.  No program takes anything back: it leaves every logger and
    every printed event in place and only adds to them, so the text of
    every stream after the program starts with its text before. *)
Theorem program_only_appends (p : list Step) (w w' : World) :
  run p w = Some (tt, w') ->
  (exists more, heap w' = heap w ++ more) /\
  (exists later, trace w' = trace w ++ later) /\
  (forall s, exists text,
      sink_text (trace w') s = sink_text (trace w) s ++ text).
Proof.
  intros Hr. destruct (run_extends p w w' tt Hr) as [Hh [later Ht]].
  split; [exact Hh|]. split; [exists later; exact Ht|].
  intros s. exists (sink_text later s). rewrite Ht. apply sink_text_app.
Qed.

Lemma program_only_appends_witness :
  run program0 world0 = Some (tt, world1) /\
  (exists more, heap world1 = heap world0 ++ more) /\
  (exists later, trace world1 = trace world0 ++ later) /\
  (forall s, exists text,
      sink_text (trace world1) s = sink_text (trace world0) s ++ text).
Proof.
  assert (Hr : run program0 world0 = Some (tt, world1)) by reflexivity.
  split; [exact Hr|].
  exact (program_only_appends program0 world0 world1 Hr).
Defined.

Lemma split_lines_line (line t : str) :
  ~ In NEWLINE line ->
  split_lines (line ++ NEWLINE :: t) = line :: split_lines t.
Proof.
  assert (Hcons : forall c u,
             split_lines (c :: u) =
               if decide (c = NEWLINE) then [] :: split_lines u
               else match split_lines u with
                    | [] => [[c]]
                    | first :: rest => (c :: first) :: rest
                    end) by reflexivity.
  induction line as [|c line IH]; intros Hno.
  - rewrite app_nil_l, Hcons, decide_True by reflexivity. reflexivity.
  - rewrite <- app_comm_cons, Hcons.
    rewrite decide_False by (intros E; apply Hno; left; auto).
    rewrite IH by (intros Hin; apply Hno; right; exact Hin). reflexivity.
Qed.

(** X13.  The stream is line-delimited: cut at its line ends, the text
    that a stream has received is the list of the JSON texts of the
    records printed to it, one line for each record and in the order of
    printing, whatever the payloads contain. *)
Theorem stream_splits_into_records (tr : list Event) (s : Sink) :
  split_lines (sink_text tr s) =
    map (fun e => json_dumps (ev_msg e)) (events_on tr s).
Proof.
  assert (Htext : forall e tr,
             sink_text (e :: tr) s =
               (if decide (ev_file e = s) then written e else [])
                 ++ sink_text tr s) by reflexivity.
  assert (Hon : forall e tr,
             events_on (e :: tr) s =
               if bool_decide (ev_file e = s) then e :: events_on tr s
               else events_on tr s) by reflexivity.
  induction tr as [|e tr IH]; [reflexivity|].
  rewrite Htext, Hon.
  destruct (decide (ev_file e = s)) as [E|E].
  - rewrite (bool_decide_eq_true_2 _ E).
    unfold written. rewrite <- app_assoc.
    change ([NEWLINE] ++ sink_text tr s) with (NEWLINE :: sink_text tr s).
    rewrite split_lines_line by apply json_dumps_one_line.
    rewrite IH. reflexivity.
  - rewrite (bool_decide_eq_false_2 _ E). exact IH.
Qed.

(** ** The printed text is JSON *)

Lemma json_chars_app (s1 s2 : str) :
  json_chars s1 -> json_chars s2 -> json_chars (s1 ++ s2).
Proof.
  intros H1 H2. induction H1; simpl; [exact H2| | |].
  - apply jc_char; assumption.
  - apply jc_escape; assumption.
  - apply jc_unicode; assumption.
Qed.

Lemma hexdigit_is_hex (d : N) : (d < 16)%N -> is_hex (hexdigit d).
Proof.
  unfold is_hex, hexdigit. intros Hd. destruct (N.ltb_spec d 10); lia.
Qed.

Lemma u_escape_json (n : N) : json_chars (u_escape n).
Proof.
  unfold u_escape, hex4.
  apply jc_unicode; try (apply hexdigit_is_hex; apply N.mod_lt; lia).
  apply jc_end.
Qed.

Lemma ESCAPE_DCT_json (c : N) (s : str) :
  ESCAPE_DCT c = Some s -> json_chars s.
Proof.
  unfold ESCAPE_DCT.
  repeat match goal with
         | |- context [if ?b then _ else _] => destruct b
         end;
    intros E; inversion E; subst;
    try apply u_escape_json;
    (apply jc_escape; [simpl; tauto | apply jc_end]).
Qed.

Lemma encode_char_json (c : N) : json_chars (encode_char c).
Proof.
  unfold encode_char. destruct (ESCAPE_ASCII c) eqn:E.
  - unfold replace. destruct (ESCAPE_DCT c) as [s|] eqn:Ed.
    + exact (ESCAPE_DCT_json c s Ed).
    + destruct (c <? 65536)%N; [apply u_escape_json|].
      apply json_chars_app; apply u_escape_json.
  - unfold ESCAPE_ASCII in E.
    apply orb_false_elim in E as [E0 E].
    apply orb_false_elim in E0 as [Eb Eq].
    apply negb_false_iff, andb_true_iff in E as [E1 E2].
    apply N.leb_le in E1, E2. apply N.eqb_neq in Eb, Eq.
    apply jc_char; [lia | exact Eq | exact Eb | apply jc_end].
Qed.

Lemma py_encode_basestring_ascii_json (s : str) :
  json_string (py_encode_basestring_ascii s).
Proof.
  exists (flat_map encode_char s). split; [reflexivity|].
  induction s as [|c s IH]; simpl; [apply jc_end|].
  apply json_chars_app; [apply encode_char_json | exact IH].
Qed.

Lemma join_items_json (kv : str * str) (d : dict) :
  json_members (join (lit ", ") (map encode_item (kv :: d))).
Proof.
  revert kv. induction d as [|kv' d IH]; intros kv.
  - apply jm_last; apply py_encode_basestring_ascii_json.
  - change (join (lit ", ") (map encode_item (kv :: kv' :: d)))
      with (encode_item kv ++ lit ", "
              ++ join (lit ", ") (map encode_item (kv' :: d))).
    apply jm_more; try apply py_encode_basestring_ascii_json. apply IH.
Qed.

(** X14.  What [json.dumps] makes of a dictionary of strings, and so
    every line that a logger prints, is a JSON object in the grammar of
    RFC 8259: braces around members, every member a string, a colon and
    another string, whatever characters the keys and values hold. *)
Theorem json_dumps_is_json_object (d : dict) : json_object (json_dumps d).
Proof.
  destruct d as [|kv d]; [left; reflexivity|].
  right. eexists. split; [apply (join_items_json kv d) | reflexivity].
Qed.

(** ** Plain strings are printed as they are *)

Lemma plain_verbatim (s : str) :
  plain s -> py_encode_basestring_ascii s = quoted s.
Proof.
  unfold py_encode_basestring_ascii, quoted. intros H. do 2 f_equal.
  induction H as [|c s Hc Hs IH]; simpl; [reflexivity|].
  unfold encode_char at 1. rewrite Hc, IH. reflexivity.
Qed.

Lemma value_plain (t : MessageType) : plain (value t).
Proof. destruct t; repeat constructor. Qed.

(** X15.  When the payload, the component and the host consist of
    printable ASCII characters other than the quote and the backslash,
    the line of a message is the text that one expects to read: the five
    members in the order [type], [data], [component], [host], [timestamp],
    every string between quotes and character for character what was
    logged, the timestamp in ISO format. *)
Theorem plain_message_line (self : ref) (D : str) (T : MessageType)
        (w : World) (l : Logger) :
  heap w !! self = Some l ->
  plain D -> plain (component l) -> plain (host l) ->
  exists rec,
    Logger.log_msg self D (Some T) w = Some (tt, emitted w l rec) /\
    json_dumps rec =
      lit "{" ++ quoted (lit "type") ++ lit ": " ++ quoted (value T)
        ++ lit ", " ++ quoted (lit "data") ++ lit ": " ++ quoted D
        ++ lit ", " ++ quoted (lit "component") ++ lit ": "
        ++ quoted (component l)
        ++ lit ", " ++ quoted (lit "host") ++ lit ": " ++ quoted (host l)
        ++ lit ", " ++ quoted (lit "timestamp") ++ lit ": "
        ++ quoted (isoformat (clock w (ticks w)))
        ++ lit "}".
Proof.
  intros Hl HD Hc Hh. eexists.
  split; [exact (call_method_emitted self (op_log_msg D (Some T)) w l Hl)|].
  change (method_record l (clock w (ticks w)) (op_log_msg D (Some T)))
    with [ (lit "type", value T); (lit "data", D);
           (lit "component", component l); (lit "host", host l);
           (lit "timestamp", isoformat (clock w (ticks w))) ].
  unfold json_dumps. cbn [map join]. unfold encode_item. cbn [fst snd].
  rewrite (plain_verbatim D HD), (plain_verbatim _ Hc), (plain_verbatim _ Hh).
  rewrite (plain_verbatim _ (value_plain T)).
  rewrite (plain_verbatim _ (isoformat_plain _)).
  rewrite !(plain_verbatim (lit _)) by (repeat constructor).
  rewrite <- !app_assoc. reflexivity.
Qed.

Lemma plain_message_line_witness :
  heap world0 !! 0%nat = Some root0 /\
  plain (lit "disk full") /\ plain (component root0) /\ plain (host root0) /\
  exists rec,
    Logger.log_msg 0 (lit "disk full") (Some ERROR) world0 =
      Some (tt, emitted world0 root0 rec) /\
    json_dumps rec =
      lit "{" ++ quoted (lit "type") ++ lit ": " ++ quoted (value ERROR)
        ++ lit ", " ++ quoted (lit "data") ++ lit ": "
        ++ quoted (lit "disk full")
        ++ lit ", " ++ quoted (lit "component") ++ lit ": "
        ++ quoted (component root0)
        ++ lit ", " ++ quoted (lit "host") ++ lit ": "
        ++ quoted (host root0)
        ++ lit ", " ++ quoted (lit "timestamp") ++ lit ": "
        ++ quoted (isoformat (clock world0 (ticks world0)))
        ++ lit "}".
Proof.
  assert (H1 : plain (lit "disk full")) by (repeat constructor).
  assert (H2 : plain (component root0)) by (repeat constructor).
  assert (H3 : plain (host root0)) by (repeat constructor).
  split; [reflexivity|]. do 3 (split; [assumption|]).
  exact (plain_message_line 0%nat (lit "disk full") ERROR world0 root0
           eq_refl H1 H2 H3).
Defined.

(** ** The line determines the record *)

Lemma hexval_hexdigit (d : N) : (d < 16)%N -> hexval (hexdigit d) = Some d.
Proof.
  unfold hexval, hexdigit. intros Hd.
  destruct (N.ltb_spec d 10); cbv iota;
    repeat match goal with
           | |- context [N.leb ?a ?b] => destruct (N.leb_spec a b); try lia
           end;
    simpl; f_equal; lia.
Qed.

Lemma unhex4_hex4 (n : N) :
  (n < 65536)%N ->
  unhex4 (hexdigit ((n / 4096) mod 16)) (hexdigit ((n / 256) mod 16))
         (hexdigit ((n / 16) mod 16)) (hexdigit (n mod 16)) = Some n.
Proof.
  intros Hn. unfold unhex4.
  rewrite !hexval_hexdigit by (apply N.mod_lt; lia).
  f_equal. zify. Z.to_euclidean_division_equations. lia.
Qed.

Lemma scan_plain (c : N) (t : str) :
  c <> QUOTE -> c <> BACKSLASH -> scanstring (c :: t) = push c (scanstring t).
Proof.
  intros Hq Hb. cbn [scanstring].
  apply N.eqb_neq in Hq, Hb. rewrite Hq, Hb. reflexivity.
Qed.

Lemma scan_short (e c : N) (t : str) :
  unescape_short e = Some c -> e <> 117%N ->
  scanstring (BACKSLASH :: e :: t) = push c (scanstring t).
Proof.
  intros He Hu. cbn [scanstring].
  apply N.eqb_neq in Hu. rewrite Hu, He. reflexivity.
Qed.

Lemma scan_u (n : N) (t : str) :
  (n < 65536)%N -> ~ (55296 <= n < 56320)%N ->
  scanstring (u_escape n ++ t) = push n (scanstring t).
Proof.
  intros Hn Hs. unfold u_escape, hex4. cbn [app scanstring].
  rewrite (unhex4_hex4 n Hn).
  change (BACKSLASH =? QUOTE)%N with false.
  change (BACKSLASH =? BACKSLASH)%N with true.
  change (117 =? 117)%N with true. cbv iota.
  destruct (N.leb_spec 55296 n); destruct (N.ltb_spec n 56320);
    try lia; reflexivity.
Qed.

Lemma scan_pair (hi lo : N) (t : str) :
  (55296 <= hi < 56320)%N -> (56320 <= lo < 57344)%N ->
  scanstring (u_escape hi ++ u_escape lo ++ t) =
    push (65536 + (hi - 55296) * 1024 + (lo - 56320))%N (scanstring t).
Proof.
  intros Hhi Hlo. unfold u_escape, hex4. cbn [app scanstring].
  rewrite (unhex4_hex4 hi) by lia. rewrite (unhex4_hex4 lo) by lia.
  change (BACKSLASH =? QUOTE)%N with false.
  change (BACKSLASH =? BACKSLASH)%N with true.
  change (117 =? 117)%N with true. cbv iota. cbn [andb].
  destruct (N.leb_spec 55296 hi); destruct (N.ltb_spec hi 56320);
    destruct (N.leb_spec 56320 lo); destruct (N.ltb_spec lo 57344);
    try lia; reflexivity.
Qed.

(** Every number below 1024 is in the list of the first 1024 numbers. *)
Lemma below_1024 (P : N -> bool) :
  forallb P (map N.of_nat (seq 0 1024)) = true ->
  forall y, (y < 1024)%N -> P y = true.
Proof.
  intros H y Hy. rewrite List.forallb_forall in H. apply H.
  apply List.in_map_iff. exists (N.to_nat y).
  split; [apply N2Nat.id | apply List.in_seq; lia].
Qed.

Lemma lor_surrogate (y : N) :
  (y < 1024)%N ->
  N.lor 55296 y = (55296 + y)%N /\ N.lor 56320 y = (56320 + y)%N.
Proof.
  intros Hy.
  pose proof (below_1024
                (fun y => (N.lor 55296 y =? 55296 + y)
                          && (N.lor 56320 y =? 56320 + y))%N) as H.
  specialize (H ltac:(vm_compute; reflexivity) y Hy).
  apply andb_true_iff in H as [H1 H2].
  apply N.eqb_eq in H1, H2. auto.
Qed.

Lemma surrogates_of (c : N) :
  (65536 <= c <= 1114111)%N ->
  let n := (c - 65536)%N in
  N.lor 55296 (N.land (N.shiftr n 10) 1023) = (55296 + n / 1024)%N /\
  N.lor 56320 (N.land n 1023) = (56320 + n mod 1024)%N /\
  (n / 1024 < 1024)%N.
Proof.
  intros Hc n.
  assert (Hn : (n < 1048576)%N) by (unfold n; lia).
  assert (Hq : (n / 1024 < 1024)%N) by (apply N.Div0.div_lt_upper_bound; lia).
  assert (Hr : (n mod 1024 < 1024)%N) by (apply N.mod_lt; lia).
  rewrite N.shiftr_div_pow2. change (2 ^ 10)%N with 1024%N.
  change 1023%N with (N.ones 10). rewrite !N.land_ones.
  change (2 ^ 10)%N with 1024%N.
  rewrite (N.mod_small (n / 1024) 1024 Hq).
  destruct (lor_surrogate _ Hq) as [H1 _].
  destruct (lor_surrogate _ Hr) as [_ H2].
  auto.
Qed.

Lemma ESCAPE_DCT_None (c : N) :
  ESCAPE_DCT c = None -> (32 <= c)%N /\ c <> BACKSLASH /\ c <> QUOTE.
Proof.
  unfold ESCAPE_DCT.
  destruct (N.eqb_spec c BACKSLASH); [discriminate|].
  destruct (N.eqb_spec c QUOTE); [discriminate|].
  repeat match goal with
         | |- context [N.eqb ?a ?b] => destruct (N.eqb a b); [discriminate|]
         end.
  destruct (N.ltb_spec c 32); [discriminate|]. auto.
Qed.

(** The reader undoes what the encoder does to a scalar value. *)
Lemma scan_encode_char (c : N) (t : str) :
  scalar c -> scanstring (encode_char c ++ t) = push c (scanstring t).
Proof.
  intros Hs. unfold encode_char. destruct (ESCAPE_ASCII c) eqn:E.
  - unfold replace. destruct (ESCAPE_DCT c) as [s|] eqn:Ed.
    + unfold ESCAPE_DCT in Ed.
      repeat match type of Ed with
             | context [N.eqb c ?b] =>
                 destruct (N.eqb_spec c b);
                   [subst c; inversion Ed; subst s; reflexivity|]
             end.
      destruct (N.ltb_spec c 32); [|discriminate].
      inversion Ed; subst s. apply scan_u; lia.
    + apply ESCAPE_DCT_None in Ed as [H32 [Hb Hq]].
      destruct (N.ltb_spec c 65536) as [Hlt|Hge].
      * apply scan_u; [exact Hlt|]. unfold scalar in Hs. lia.
      * assert (Hc : (65536 <= c <= 1114111)%N)
          by (unfold scalar in Hs; lia).
        destruct (surrogates_of c Hc) as [H1 [H2 Hq1]].
        cbv zeta in H1, H2, Hq1. cbv zeta. rewrite H1, H2.
        rewrite <- app_assoc.
        assert (Hr : ((c - 65536) mod 1024 < 1024)%N)
          by (apply N.mod_lt; lia).
        assert (Hsum : (c = 65536 + (c - 65536) / 1024 * 1024
                            + (c - 65536) mod 1024)%N)
          by (zify; Z.to_euclidean_division_equations; lia).
        revert Hq1 Hr Hsum.
        generalize ((c - 65536) / 1024)%N, ((c - 65536) mod 1024)%N.
        intros q r Hq1 Hr Hsum.
        rewrite scan_pair by lia.
        f_equal. lia.
  - unfold ESCAPE_ASCII in E.
    apply orb_false_elim in E as [E0 _].
    apply orb_false_elim in E0 as [Eb Eq].
    apply N.eqb_neq in Eb, Eq.
    apply scan_plain; assumption.
Qed.

Lemma scan_encoded (s rest : str) :
  Forall scalar s ->
  scanstring (flat_map encode_char s ++ QUOTE :: rest) = Some (s, rest).
Proof.
  intros Hs. induction Hs as [|c s Hc Hs IH]; [reflexivity|].
  cbn [flat_map]. rewrite <- app_assoc.
  rewrite (scan_encode_char c _ Hc), IH. reflexivity.
Qed.

(** Two encoded strings of scalar values that start two equal texts are
    encodings of the same string, and what follows them is the same. *)
Lemma py_encode_basestring_ascii_cancel (s1 s2 r1 r2 : str) :
  Forall scalar s1 -> Forall scalar s2 ->
  py_encode_basestring_ascii s1 ++ r1 = py_encode_basestring_ascii s2 ++ r2 ->
  s1 = s2 /\ r1 = r2.
Proof.
  intros H1 H2 E. unfold py_encode_basestring_ascii in E.
  cbn [app] in E. rewrite <- !app_assoc in E. cbn [app] in E.
  injection E as E.
  apply (f_equal scanstring) in E.
  rewrite (scan_encoded s1 r1 H1), (scan_encoded s2 r2 H2) in E.
  inversion E; auto.
Qed.

Lemma join_items_text (kv : str * str) (d : dict) :
  join (lit ", ") (map encode_item (kv :: d)) ++ lit "}" =
    encode_item kv ++ items_text d.
Proof.
  destruct d as [|kv' d]; [reflexivity|].
  change (join (lit ", ") (map encode_item (kv :: kv' :: d)))
    with (encode_item kv ++ lit ", "
            ++ join (lit ", ") (map encode_item (kv' :: d))).
  rewrite <- !app_assoc. reflexivity.
Qed.

Lemma items_text_cons (kv : str * str) (d : dict) :
  items_text (kv :: d) = lit ", " ++ encode_item kv ++ items_text d.
Proof. unfold items_text at 1. rewrite join_items_text. reflexivity. Qed.

Lemma encode_item_cancel (kv1 kv2 : str * str) (r1 r2 : str) :
  Forall scalar (fst kv1) /\ Forall scalar (snd kv1) ->
  Forall scalar (fst kv2) /\ Forall scalar (snd kv2) ->
  encode_item kv1 ++ r1 = encode_item kv2 ++ r2 ->
  kv1 = kv2 /\ r1 = r2.
Proof.
  destruct kv1 as [k1 v1], kv2 as [k2 v2]. cbn [fst snd].
  intros [Hk1 Hv1] [Hk2 Hv2] E. unfold encode_item in E. cbn [fst snd] in E.
  rewrite <- !app_assoc in E.
  apply py_encode_basestring_ascii_cancel in E as [-> E]; [|assumption..].
  apply app_inv_head in E.
  apply py_encode_basestring_ascii_cancel in E as [-> E]; [|assumption..].
  auto.
Qed.

Lemma items_text_inj (d1 d2 : dict) :
  scalar_dict d1 -> scalar_dict d2 ->
  items_text d1 = items_text d2 -> d1 = d2.
Proof.
  intros H1. revert d2.
  induction H1 as [|kv1 d1 Hkv1 H1 IH]; intros d2 H2 E.
  - destruct d2 as [|kv2 d2]; [reflexivity|].
    rewrite items_text_cons in E. discriminate E.
  - destruct H2 as [|kv2 d2 Hkv2 H2].
    + rewrite items_text_cons in E. discriminate E.
    + rewrite !items_text_cons in E. apply app_inv_head in E.
      apply encode_item_cancel in E as [-> E]; [|assumption..].
      f_equal. apply IH; assumption.
Qed.

(** X16.  Printing loses nothing: two dictionaries whose keys and values
    are strings of Unicode scalar values (no surrogate code points) and
    that [json.dumps] turns into the same text are the same dictionary,
    key for key and value for value, in the same order.  So the line of
    a record tells its type, payload, handle, component, host and
    timestamp, whatever characters they hold. *)
Theorem json_dumps_inj (d1 d2 : dict) :
  scalar_dict d1 -> scalar_dict d2 ->
  json_dumps d1 = json_dumps d2 -> d1 = d2.
Proof.
  intros H1 H2 E. apply items_text_inj; [assumption..|].
  unfold json_dumps in E. apply app_inv_head in E.
  destruct H1 as [|kv1 d1 Hkv1 H1], H2 as [|kv2 d2 Hkv2 H2].
  - reflexivity.
  - rewrite join_items_text in E. discriminate E.
  - rewrite join_items_text in E. discriminate E.
  - rewrite !join_items_text in E. rewrite !items_text_cons.
    f_equal. exact E.
Qed.

Lemma json_dumps_inj_witness :
  scalar_dict record0 /\ scalar_dict record0 /\
  json_dumps record0 = json_dumps record0 /\ record0 = record0.
Proof.
  assert (H : scalar_dict record0).
  { repeat constructor; unfold scalar; lia. }
  split; [exact H|]. split; [exact H|]. split; [reflexivity|].
  exact (json_dumps_inj record0 record0 H H eq_refl).
Defined.

(** Without the hypothesis the statement fails: a high and a low
    surrogate written as two characters are printed as the one character
    that they encode together. *)
Example surrogate_pair_collides :
  json_dumps [(lit "data", [55357; 56832]%N)] =
    json_dumps [(lit "data", [128512]%N)].
Proof. reflexivity. Qed.

(** ** The timestamp determines the clock reading *)

Lemma dec2_mod (n1 n2 : N) :
  dec2 n1 = dec2 n2 -> (n1 mod 100 = n2 mod 100)%N.
Proof.
  unfold dec2, digit. intros E. injection E as Ea Eb.
  zify. Z.to_euclidean_division_equations. lia.
Qed.

Lemma dec4_mod (n1 n2 : N) :
  dec4 n1 = dec4 n2 -> (n1 mod 10000 = n2 mod 10000)%N.
Proof.
  unfold dec4. intros E. apply app_inj_1 in E as [Ea Eb]; [|reflexivity].
  apply dec2_mod in Ea, Eb.
  zify. Z.to_euclidean_division_equations. lia.
Qed.

Lemma dec6_mod (n1 n2 : N) :
  dec6 n1 = dec6 n2 -> (n1 mod 1000000 = n2 mod 1000000)%N.
Proof.
  unfold dec6. intros E. apply app_inj_1 in E as [Ea Eb]; [|reflexivity].
  apply dec2_mod in Ea. apply dec4_mod in Eb.
  zify. Z.to_euclidean_division_equations. lia.
Qed.

Lemma dec2_inj (n1 n2 : N) :
  (n1 < 100)%N -> (n2 < 100)%N -> dec2 n1 = dec2 n2 -> n1 = n2.
Proof.
  intros H1 H2 E. apply dec2_mod in E.
  rewrite !N.mod_small in E by assumption. exact E.
Qed.

Lemma dec4_inj (n1 n2 : N) :
  (n1 < 10000)%N -> (n2 < 10000)%N -> dec4 n1 = dec4 n2 -> n1 = n2.
Proof.
  intros H1 H2 E. apply dec4_mod in E.
  rewrite !N.mod_small in E by assumption. exact E.
Qed.

Lemma dec6_inj (n1 n2 : N) :
  (n1 < 1000000)%N -> (n2 < 1000000)%N -> dec6 n1 = dec6 n2 -> n1 = n2.
Proof.
  intros H1 H2 E. apply dec6_mod in E.
  rewrite !N.mod_small in E by assumption. exact E.
Qed.

(** X17.  The timestamp loses nothing either: two [datetime] values with
    the same ISO format are equal in every field, microseconds included,
    so the timestamp of a record tells the clock reading of its call. *)
Theorem isoformat_inj (t1 t2 : datetime) :
  valid_datetime t1 -> valid_datetime t2 ->
  isoformat t1 = isoformat t2 -> t1 = t2.
Proof.
  destruct t1 as [y1 mo1 d1 h1 mi1 s1 us1], t2 as [y2 mo2 d2 h2 mi2 s2 us2].
  unfold valid_datetime, isoformat. cbn [year month day hour minute second
                                          microsecond].
  intros (Hy1 & Hmo1 & Hd1 & Hh1 & Hmi1 & Hs1 & Hus1)
         (Hy2 & Hmo2 & Hd2 & Hh2 & Hmi2 & Hs2 & Hus2) E.
  apply app_inj_1 in E as [Ey E]; [|reflexivity].
  apply app_inv_head in E.
  apply app_inj_1 in E as [Emo E]; [|reflexivity].
  apply app_inv_head in E.
  apply app_inj_1 in E as [Ed E]; [|reflexivity].
  apply app_inv_head in E.
  apply app_inj_1 in E as [Eh E]; [|reflexivity].
  apply app_inv_head in E.
  apply app_inj_1 in E as [Emi E]; [|reflexivity].
  apply app_inv_head in E.
  apply app_inj_1 in E as [Es E]; [|reflexivity].
  apply dec4_inj in Ey; [|lia..].
  apply dec2_inj in Emo; [|lia..].
  apply dec2_inj in Ed; [|lia..].
  apply dec2_inj in Eh; [|lia..].
  apply dec2_inj in Emi; [|lia..].
  apply dec2_inj in Es; [|lia..].
  subst. f_equal.
  destruct (N.eqb_spec us1 0) as [Z1|Z1], (N.eqb_spec us2 0) as [Z2|Z2].
  - congruence.
  - discriminate E.
  - discriminate E.
  - apply app_inv_head in E. apply dec6_inj in E; [exact E | lia..].
Qed.

Lemma isoformat_inj_witness :
  valid_datetime (clock0 7) /\ valid_datetime (clock0 7) /\
  isoformat (clock0 7) = isoformat (clock0 7) /\ clock0 7 = clock0 7.
Proof.
  assert (H : valid_datetime (clock0 7)).
  { unfold valid_datetime. simpl. lia. }
  split; [exact H|]. split; [exact H|]. split; [reflexivity|].
  exact (isoformat_inj (clock0 7) (clock0 7) H H eq_refl).
Defined.
